(** * MultiBlock: the composite container of [pyvista/core/composite.py]

    A shallow embedding of [pyvista.MultiBlock]: the ordered store of
    (name, block) slots kept by the underlying [vtkMultiBlockDataSet], the
    [_refs] dictionary that keeps the stored objects alive, and the methods
    that address, mutate and traverse them. *)

From Stdlib Require Import ZArith QArith Qminmax Lia.
From stdpp Require Import base option list gmap sets strings pretty.

Local Open Scope Z_scope.

(** ** Data model *)

(** [DataObject.memory_address]: the identity of a wrapped VTK object.  The
    test [a is b] on two wrapped objects is equality of their addresses. *)
Definition addr := N.

(** Python exceptions raised by the modelled code. [OverflowError] is what
    the VTK layer answers to a negative block number. *)
Inductive exn := IndexError | KeyError | TypeError | ValueError | OverflowError.

#[global] Instance exn_eq_dec : EqDecision exn.
Proof. solve_decision. Defined.

Inductive outcome (A : Type) :=
| Return (a : A)
| Raise (e : exn).
Arguments Return {A} a.
Arguments Raise {A} e.

(** [FieldAssociation] of [pyvista.core.utilities.arrays]. *)
Inductive FieldAssociation := POINT | CELL | NONE | ROW.

#[global] Instance FieldAssociation_eq_dec : EqDecision FieldAssociation.
Proof. solve_decision. Defined.

(** The [preference] argument: [PointLiteral | CellLiteral]. *)
Inductive preference := pref_point | pref_cell.

(** What the code reads of a numpy array: [ndim] and [dtype]; of a dtype,
    its kind and item size. *)
Inductive dtype_kind := kind_bool | kind_int | kind_uint | kind_float | kind_complex.
Record dtype := { dt_kind : dtype_kind; dt_itemsize : nat }.

#[global] Instance dtype_kind_eq_dec : EqDecision dtype_kind.
Proof. solve_decision. Defined.
#[global] Instance dtype_eq_dec : EqDecision dtype.
Proof. solve_decision. Defined.

#[global] Instance dtype_kind_countable : Countable dtype_kind.
Proof.
  refine (inj_countable'
    (fun k => match k with
              | kind_bool => 0 | kind_int => 1 | kind_uint => 2
              | kind_float => 3 | kind_complex => 4
              end)%nat
    (fun n => match n with
              | 0 => kind_bool | 1 => kind_int | 2 => kind_uint
              | 3 => kind_float | _ => kind_complex
              end)%nat _).
  by intros [].
Defined.
#[global] Instance dtype_countable : Countable dtype.
Proof.
  refine (inj_countable' (fun d => (dt_kind d, dt_itemsize d))
                         (fun p => Build_dtype p.1 p.2) _).
  by intros [].
Defined.

Record ndarray := { ndim : nat; arr_dtype : dtype }.

(** [pyvista_ndarray([])]: one dimension, [float64]. *)
Definition empty_array : ndarray :=
  {| ndim := 1; arr_dtype := {| dt_kind := kind_float; dt_itemsize := 8 |} |}.

(** [BoundsTuple(x_min, x_max, y_min, y_max, z_min, z_max)].  Coordinates are
    finite floats; they are kept as rationals, on which [minimum] and
    [maximum] are exact as they are on floats. *)
Record BoundsTuple := mkBounds {
  x_min : Q; x_max : Q; y_min : Q; y_max : Q; z_min : Q; z_max : Q }.

(** A leaf dataset ([pyvista.DataSet]) is defined outside this module.  It is
    described by what [MultiBlock] observes of it. *)
Record DataSet := mkDataSet {
  ds_memory_address : addr;
  (** the truth value of the object in [if block] *)
  ds_truth : bool;
  ds_bounds : BoundsTuple;
  ds_n_points : Z;
  (** [block.set_active_scalars(name, preference)]: an exception, or the
      field association with the array ([None] when there is none) *)
  ds_set_active_scalars :
    option string -> preference -> outcome (FieldAssociation * option ndarray);
}.

(** A block is [None], a leaf dataset or a nested [MultiBlock].  A
    [MultiBlock] is its own address, the slots of the VTK store (the [NAME]
    metadata of the slot, and the block) and the keys of [_refs]. *)
Inductive block :=
| BNone
| BData (d : DataSet)
| BMulti (m : MultiBlock)
with MultiBlock :=
| MB (address : addr) (slots : list (option string * block)) (refs : gset addr).

Definition slot : Type := option string * block.

Definition address (self : MultiBlock) : addr := let 'MB a _ _ := self in a.
Definition slots (self : MultiBlock) : list slot := let 'MB _ s _ := self in s.
Definition refs (self : MultiBlock) : gset addr := let 'MB _ _ r := self in r.

Definition with_slots (s : list slot) (self : MultiBlock) : MultiBlock :=
  MB (address self) s (refs self).
Definition with_refs (r : gset addr) (self : MultiBlock) : MultiBlock :=
  MB (address self) (slots self) r.

(** [hasattr(dataset, 'memory_address')] and its value. *)
Definition memory_address (b : block) : option addr :=
  match b with
  | BNone => None
  | BData d => Some (ds_memory_address d)
  | BMulti m => Some (address m)
  end.

(** ** Methods as state transformers with exceptions

    A method runs on [self] and gives back [self] as it has left it, with
    the value returned or the exception raised. *)
Definition M (A : Type) : Type := MultiBlock -> MultiBlock * outcome A.

Definition ret {A} (a : A) : M A := fun self => (self, Return a).
Definition raise {A} (e : exn) : M A := fun self => (self, Raise e).
Definition bind {A B} (m : M A) (k : A -> M B) : M B :=
  fun self =>
    match m self with
    | (self', Return a) => k a self'
    | (self', Raise e) => (self', Raise e)
    end.
Definition lift {A} (o : outcome A) : M A := fun self => (self, o).
Definition modify (f : MultiBlock -> MultiBlock) : M unit :=
  fun self => (f self, Return tt).

Declare Scope py_scope.
Delimit Scope py_scope with py.
Notation "'let!' x ':=' m 'in' k" := (bind m (fun x => k))
  (at level 10, x name, m at level 100, k at level 200) : py_scope.
Notation "m '>>' k" := (bind m (fun _ => k))
  (at level 100, k at level 200, right associativity) : py_scope.
Local Open Scope py_scope.

(** [for x in l: body(x)] *)
Fixpoint for_each {A} (l : list A) (body : A -> M unit) : M unit :=
  match l with
  | [] => ret tt
  | x :: l' => body x >> for_each l' body
  end.

(** ** The VTK store ([vtkMultiBlockDataSet])

    The store is a vector of children, each a data object with its metadata;
    of the metadata only the [NAME] key is used. *)
Definition empty_slot : slot := (None, BNone).

Definition GetNumberOfBlocks (self : MultiBlock) : nat := length (slots self).

Definition SetNumberOfBlocks (n : nat) : M unit :=
  modify (fun self => with_slots (resize n empty_slot (slots self)) self).

(** [GetBlock(i)]: the null pointer when there is no such child. *)
Definition GetBlock (i : nat) (self : MultiBlock) : block :=
  match slots self !! i with
  | Some (_, b) => b
  | None => BNone
  end.

(** [SetBlock(i, data)]: grows the vector when [i] is past its end; the
    metadata of the child is kept. *)
Definition SetBlock (i : nat) (data : block) : M unit :=
  modify (fun self =>
    let s := slots self in
    let s := if decide (i < length s)%nat then s else resize (S i) empty_slot s in
    with_slots (alter (fun sl => (sl.1, data)) i s) self).

(** [GetMetaData(i).Get(NAME())] *)
Definition GetMetaDataName (i : nat) (self : MultiBlock) : option string :=
  match slots self !! i with
  | Some (nm, _) => nm
  | None => None
  end.

(** [GetMetaData(i).Set(NAME(), name)] *)
Definition SetMetaDataName (i : nat) (name : string) : M unit :=
  modify (fun self =>
    with_slots (alter (fun sl => (Some name, sl.2)) i (slots self)) self).

(** [RemoveBlock(i)]: the children after [i] move down by one, data and
    metadata together.  The block number is unsigned. *)
Definition RemoveBlock (i : Z) : M unit :=
  if i <? 0 then raise OverflowError
  else modify (fun self => with_slots (delete (Z.to_nat i) (slots self)) self).

(** ** Addressing *)

(** The property [n_blocks] and its setter. *)
Definition n_blocks (self : MultiBlock) : nat := GetNumberOfBlocks self.
Definition n_blocks_setter (n : nat) : M unit := SetNumberOfBlocks n.

(** [range(n)[i]] for an integer [i]. *)
Definition range_getitem (n : nat) (i : Z) : outcome nat :=
  if (i <? - Z.of_nat n) || (Z.of_nat n <=? i) then Raise IndexError
  else Return (Z.to_nat (if i <? 0 then Z.of_nat n + i else i)).

(** [wrap] gives back [None] and the wrapped PyVista objects as they are. *)
Definition wrap (b : block) : block := b.

(** An integer or a name, as [__getitem__], [__setitem__], [__delitem__] and
    [pop] take them. *)
Inductive key := KInt (i : Z) | KStr (s : string).

Definition get_block_name (index : Z) : M (option string) :=
  fun self =>
    (let! index := lift (range_getitem (n_blocks self) index) in
     ret (GetMetaDataName index self)) self.

Definition set_block_name (index : Z) (name : option string) : M unit :=
  match name with
  | None => ret tt
  | Some name =>
      fun self =>
        (let! index := lift (range_getitem (n_blocks self) index) in
         SetMetaDataName index name) self
  end.

(** The loop of [get_index_by_name] over the positions still to visit. *)
Fixpoint get_index_by_name_loop (name : string) (positions : list nat) : M nat :=
  match positions with
  | [] => raise KeyError
  | i :: rest =>
      let! nm := get_block_name (Z.of_nat i) in
      if decide (nm = Some name) then ret i
      else get_index_by_name_loop name rest
  end.

Definition get_index_by_name (name : string) : M nat :=
  fun self => get_index_by_name_loop name (seq 0 (n_blocks self)) self.

(** [__getitem__] for an integer or a name. *)
Definition __getitem__ (index : key) : M block :=
  let! index :=
    match index with
    | KStr s => let! i := get_index_by_name s in ret (Z.of_nat i)
    | KInt i => ret i
    end in
  fun self =>
    let n := Z.of_nat (n_blocks self) in
    if (index <? - n) || (index >=? n) then raise IndexError self
    else
      let index := if index <? 0 then n + index else index in
      ret (wrap (GetBlock (Z.to_nat index) self)) self.

(** [keys()] *)
Definition keys (self : MultiBlock) : list (option string) :=
  (fun i => GetMetaDataName i self) <$> seq 0 (n_blocks self).

(** [for block in self]: the blocks in slot order. *)
Definition iter_blocks (self : MultiBlock) : list block := snd <$> slots self.

(** ** Mutation *)

(** [_remove_ref(index)] *)
Definition _remove_ref (index : Z) : M unit :=
  let! dataset := __getitem__ (KInt index) in
  match memory_address dataset with
  | Some a => modify (fun self => with_refs (refs self ∖ {[a]}) self)
  | None => ret tt
  end.

(** [f'Block-{i:02}'] *)
Definition default_name (i : nat) : string :=
  ("Block-" +:+ (if decide (i < 10)%nat then "0" else "") +:+ pretty i)%string.

(** [self._refs[data.memory_address] = data] *)
Definition store_ref (data : block) : M unit :=
  match memory_address data with
  | Some a => modify (fun self => with_refs ({[a]} ∪ refs self) self)
  | None => ret tt
  end.

(** [b is None] *)
Definition is_None (b : block) : bool :=
  match b with
  | BNone => true
  | _ => false
  end.

(** The part of [__setitem__] below "data, i, and name are a single value
    now". *)
Definition setitem_single (i : Z) (name : option string) (data : block) : M unit :=
  let data := wrap data in
  let! i := (fun self => lift (range_getitem (n_blocks self) i) self) in
  let! existing_dataset := (fun self => ret (GetBlock i self) self) in
  (if is_None existing_dataset then ret tt else _remove_ref (Z.of_nat i)) >>
  SetBlock i data >>
  (if is_None data then ret tt else store_ref data) >>
  let name := match name with None => default_name i | Some name => name end in
  set_block_name (Z.of_nat i) (Some name).

(** [__setitem__] at an integer: [i = index], [name] stays [None]. *)
Definition setitem_int (index : Z) (data : block) : M unit :=
  setitem_single index None data.

(** What [append] may be given: a block, or something that [wrap] turns into
    a [pyvista_ndarray]. *)
Inductive pyobject := PyBlock (b : block) | PyArray.

(** [dataset is self] *)
Definition is_self (dataset : block) (self : MultiBlock) : bool :=
  match dataset with
  | BMulti m => bool_decide (address m = address self)
  | _ => false
  end.

Definition append (dataset : pyobject) (name : option string) : M unit :=
  fun self =>
    match dataset with
    | PyBlock b =>
        if is_self b self then raise ValueError self
        else
          let index := n_blocks self in
          (n_blocks_setter (S index) >>
           setitem_int (Z.of_nat index) (wrap b) >>
           set_block_name (Z.of_nat index) name) self
    | PyArray => raise TypeError self
    end.

(** [__setitem__] for an integer or a name. *)
Definition __setitem__ (index : key) (data : block) : M unit :=
  match index with
  | KStr s =>
      fun self =>
        match get_index_by_name s self with
        | (self', Return i) => setitem_single (Z.of_nat i) (Some s) data self'
        | (self', Raise KeyError) => append (PyBlock data) (Some s) self'
        | (self', Raise e) => (self', Raise e)
        end
  | KInt i => setitem_int i data
  end.

(** [__delitem__] for an integer or a name. *)
Definition __delitem__ (index : key) : M unit :=
  let! index :=
    match index with
    | KStr s => let! i := get_index_by_name s in ret (Z.of_nat i)
    | KInt i => ret i
    end in
  _remove_ref index >>
  RemoveBlock index.

Definition replace (index : Z) (dataset : block) : M unit :=
  let! name := get_block_name index in
  __setitem__ (KInt index) dataset >>
  set_block_name index name.

Definition insert (index : Z) (dataset : block) (name : option string) : M unit :=
  let! index := (fun self => lift (range_getitem (n_blocks self) index) self) in
  (fun self => n_blocks_setter (S (n_blocks self)) self) >>
  (fun self =>
     for_each (reverse (seq index (n_blocks self - 1 - index)))
       (fun i =>
          let! b := __getitem__ (KInt (Z.of_nat i)) in
          __setitem__ (KInt (Z.of_nat i + 1)) b >>
          let! nm := get_block_name (Z.of_nat i) in
          set_block_name (Z.of_nat i + 1) nm) self) >>
  __setitem__ (KInt (Z.of_nat index)) dataset >>
  set_block_name (Z.of_nat index) name.

(** ** Slices *)

(** [slice(start, stop, step)] *)
Record slice := mkSlice {
  sl_start : option Z; sl_stop : option Z; sl_step : option Z }.

(** [slice.indices(n)]: the start, stop and step of the slice on a sequence
    of length [n]; [ValueError] when the step is zero. *)
Definition slice_indices (sl : slice) (n : nat) : outcome (Z * Z * Z) :=
  let n := Z.of_nat n in
  let step := default 1 (sl_step sl) in
  if step =? 0 then Raise ValueError
  else
    let lower := if step <? 0 then -1 else 0 in
    let upper := if step <? 0 then n - 1 else n in
    let clamp (v : Z) :=
      if v <? 0 then Z.max (v + n) lower else Z.min v upper in
    let start :=
      match sl_start sl with
      | None => if step <? 0 then upper else lower
      | Some v => clamp v
      end in
    let stop :=
      match sl_stop sl with
      | None => if step <? 0 then lower else upper
      | Some v => clamp v
      end in
    Return (start, stop, step).

(** The elements of [range(start, stop, step)]. *)
Definition range_elements (r : Z * Z * Z) : list Z :=
  let '(start, stop, step) := r in
  let len :=
    if step <? 0 then
      (if stop <? start then (start - stop - 1) / (- step) + 1 else 0)
    else
      (if start <? stop then (stop - start - 1) / step + 1 else 0) in
  (fun k => start + Z.of_nat k * step) <$> seq 0 (Z.to_nat len).

(** [range(n)[sl]] as the list of its elements. *)
Definition range_getslice (n : nat) (sl : slice) : outcome (list Z) :=
  match slice_indices sl n with
  | Return r => Return (range_elements r)
  | Raise e => Raise e
  end.

(** [zip_longest(xs, ys)]: the shorter side is filled with [None]; a [None]
    on the data side is the block [None]. *)
Fixpoint zip_longest (xs : list Z) (ys : list block) : list (option Z * block) :=
  match xs, ys with
  | [], _ => (fun y => (None, y)) <$> ys
  | _, [] => (fun x => (Some x, BNone)) <$> xs
  | x :: xs', y :: ys' => (Some x, y) :: zip_longest xs' ys'
  end.

(** [index_iter[-1]] *)
Definition range_last (index_iter : list Z) : outcome Z :=
  match last index_iter with
  | Some v => Return v
  | None => Raise IndexError
  end.

(** [__setitem__] for a slice. *)
Definition __setitem__slice (index : slice) (data : list block) : M unit :=
  let! index_iter := (fun self => lift (range_getslice (n_blocks self) index) self) in
  for_each (imap (fun i p => (i, p)) (zip_longest index_iter data))
    (fun '(i, (idx, d)) =>
       match idx with
       | None =>
           let! l := lift (range_last index_iter) in
           insert (l + 1 + (Z.of_nat i - Z.of_nat (length index_iter))) d None
       | Some idx =>
           if is_None d then
             let! l := lift (range_last index_iter) in
             __delitem__ (KInt (l + 1))
           else __setitem__ (KInt idx) d
       end).

(** [__delitem__] for a slice. *)
Definition __delitem__slice (index : slice) : M unit :=
  fun self =>
    match slice_indices index (n_blocks self) with
    | Raise e => (self, Raise e)
    | Return (start, stop, step) =>
        if 0 <? step then
          for_each (reverse (range_elements (start, stop, step)))
            (fun i => __delitem__ (KInt i)) self
        else
          for_each (range_elements (start, stop, step))
            (fun i => __delitem__ (KInt i)) self
    end.

(** ** Whole-collection queries *)

(** [np.minimum] and [np.maximum] on two rows of six coordinates. *)
Definition np_minimum (a b : BoundsTuple) : BoundsTuple :=
  mkBounds (Qmin (x_min a) (x_min b)) (Qmin (x_max a) (x_max b))
           (Qmin (y_min a) (y_min b)) (Qmin (y_max a) (y_max b))
           (Qmin (z_min a) (z_min b)) (Qmin (z_max a) (z_max b)).
Definition np_maximum (a b : BoundsTuple) : BoundsTuple :=
  mkBounds (Qmax (x_min a) (x_min b)) (Qmax (x_max a) (x_max b))
           (Qmax (y_min a) (y_min b)) (Qmax (y_max a) (y_max b))
           (Qmax (z_min a) (z_min b)) (Qmax (z_max a) (z_max b)).

(** [ufunc.reduce(rows)] on a first row and the rows after it. *)
Definition ufunc_reduce (f : BoundsTuple -> BoundsTuple -> BoundsTuple)
    (row : BoundsTuple) (rows : list BoundsTuple) : BoundsTuple :=
  foldl f row rows.

(** The body of [bounds] below the list comprehension. *)
Definition bounds_of (all_bounds : list BoundsTuple) : BoundsTuple :=
  match all_bounds with
  | [] => mkBounds 0 0 0 0 0 0
  | row :: rows =>
      let mi := ufunc_reduce np_minimum row rows in
      let ma := ufunc_reduce np_maximum row rows in
      (* [::2] of the minima, [1::2] of the maxima, interleaved *)
      mkBounds (x_min mi) (x_max ma) (y_min mi) (y_max ma) (z_min mi) (z_max ma)
  end.

(** The list comprehension of [bounds]: [block.bounds for block in self if
    block].  [if block] is false on [None] and on a nested [MultiBlock] of
    length zero ([__len__]); [bounds] of a nested one is [nested_bounds]. *)
Definition all_bounds_of (nested_bounds : MultiBlock -> BoundsTuple)
    : list slot -> list BoundsTuple :=
  fix all_bounds (l : list slot) : list BoundsTuple :=
    match l with
    | [] => []
    | (_, BNone) :: l' => all_bounds l'
    | (_, BData d) :: l' =>
        if ds_truth d then ds_bounds d :: all_bounds l' else all_bounds l'
    | (_, BMulti m) :: l' =>
        if bool_decide (0 < n_blocks m)%nat
        then nested_bounds m :: all_bounds l' else all_bounds l'
    end.

(** The property [bounds]. *)
Fixpoint bounds (self : MultiBlock) : BoundsTuple :=
  match self with
  | MB _ s _ => bounds_of (all_bounds_of bounds s)
  end.

(** The second loop of [clean]: [del self[int(null_blocks[i])]] and
    [null_blocks -= 1], for [i] in [positions]. *)
Fixpoint clean_remove (positions : list nat) (null_blocks : list Z) : M unit :=
  match positions with
  | [] => ret tt
  | i :: rest =>
      let! idx := lift (match null_blocks !! i with
                        | Some v => Return v
                        | None => Raise IndexError
                        end) in
      __delitem__ (KInt idx) >>
      clean_remove rest ((fun v => v - 1) <$> null_blocks)
  end.

(** The first loop of [clean], from position [i] on: the slots as the loop
    leaves them and [null_blocks].  A nested [MultiBlock] is cleaned in place
    by [clean_nested], so the slot holds it as that call has left it. *)
Definition clean_scan (clean_nested : MultiBlock -> MultiBlock * outcome unit)
    (empty : bool) : Z -> list slot -> list slot * outcome (list Z) :=
  fix scan (i : Z) (l : list slot) : list slot * outcome (list Z) :=
    match l with
    | [] => ([], Return [])
    | (nm, data) :: l' =>
        let '(data', is_null) :=
          match data with
          | BMulti m =>
              match clean_nested m with
              | (m', Return _) =>
                  (BMulti m', Return (bool_decide (n_blocks m' < 1)%nat))
              | (m', Raise e) => (BMulti m', Raise e)
              end
          | BNone => (data, Return true)
          | BData d => (data, Return (empty && (ds_n_points d <? 1)))
          end in
        match is_null with
        | Raise e => ((nm, data') :: l', Raise e)
        | Return is_null =>
            let '(l'', rest) := scan (i + 1) l' in
            ((nm, data') :: l'',
             match rest with
             | Return ns => Return (if is_null then i :: ns else ns)
             | Raise e => Raise e
             end)
        end
    end.

(** [clean(empty)]; the nested call is [data.clean()], with the default
    [empty=True]. *)
Fixpoint clean (empty : bool) (self : MultiBlock) : MultiBlock * outcome unit :=
  match self with
  | MB a s r =>
      let '(s', null_blocks) := clean_scan (clean true) empty 0 s in
      match null_blocks with
      | Return null_blocks =>
          clean_remove (seq 0 (length null_blocks)) null_blocks (MB a s' r)
      | Raise e => (MB a s' r, Raise e)
      end
  end.

(** Modelled from the spec: [parse_field_choice] of [utilities.arrays] is
    not part of this module; it gives the association a preference names. *)
Definition parse_field_choice (p : preference) : FieldAssociation :=
  match p with
  | pref_point => POINT
  | pref_cell => CELL
  end.

(** An entry of [data_assoc]: the field, the scalars and the block. *)
Definition assoc : Type := FieldAssociation * ndarray * block.

(** The choice of [field_asc] among the entries of [data_assoc]. *)
Definition choose_field (first : FieldAssociation) (preference_ : FieldAssociation)
    (data_assoc : list assoc) : FieldAssociation :=
  if decide (first <> preference_) then
    (fix search (l : list assoc) : FieldAssociation :=
       match l with
       | [] => first
       | (field, _, _) :: l' =>
           if decide (field = preference_) then preference_ else search l'
       end) data_assoc
  else first.

(** The consistency loops: [for _ in self: for field, scalars, _ in
    data_assoc], collecting [dims] and [dtypes]; [scalars] is rebound by every
    inner iteration. *)
Definition verify_loops (blocks : list block) (data_assoc : list assoc)
    (field_asc : FieldAssociation) (scalars : ndarray)
    : gset nat * gset dtype * ndarray :=
  foldl (fun st _ =>
    foldl (fun '(dims, dtypes, _) '(field, scalars, _) =>
             if decide (field <> field_asc) then (dims, dtypes, scalars)
             else ({[ndim scalars]} ∪ dims, {[arr_dtype scalars]} ∪ dtypes, scalars))
          st data_assoc)
    (∅, ∅, scalars) blocks.

(** [np.issubdtype(dtype, np.complexfloating)] *)
Definition is_complexfloating (d : dtype) : bool :=
  bool_decide (dt_kind d = kind_complex).

(** What the first loop of [set_active_scalars] gets from one block:
    nothing for [None], else the field and the scalars. *)
Definition visit_block
    (nested : MultiBlock -> outcome (FieldAssociation * ndarray))
    (name : option string) (preference : preference) (allow_missing : bool)
    (block : block) : outcome (option (FieldAssociation * ndarray)) :=
  match block with
  | BNone => Return None
  | BMulti m =>
      match nested m with
      | Return r => Return (Some r)
      | Raise e => Raise e
      end
  | BData d =>
      match ds_set_active_scalars d name preference with
      | Return (_, None) => Return (Some (NONE, empty_array))
      | Return (field, Some scalars_out) => Return (Some (field, scalars_out))
      | Raise KeyError =>
          if allow_missing then
            match ds_set_active_scalars d None preference with
            | Return _ => Return (Some (NONE, empty_array))
            | Raise e => Raise e
            end
          else Raise KeyError
      | Raise e => Raise e
      end
  end.

(** The first loop of [set_active_scalars]: [data_assoc], and [scalars] as
    last bound.  ([scalars] is unbound before the first block that is not
    [None]; [empty_array] stands for it, and is never returned.) *)
Definition collect_assoc
    (nested : MultiBlock -> outcome (FieldAssociation * ndarray))
    (name : option string) (preference : preference) (allow_missing : bool)
    : list slot -> ndarray -> outcome (list assoc * ndarray) :=
  fix collect (l : list slot) (scalars : ndarray) : outcome (list assoc * ndarray) :=
    match l with
    | [] => Return ([], scalars)
    | (_, block) :: l' =>
        match visit_block nested name preference allow_missing block with
        | Raise e => Raise e
        | Return None => collect l' scalars
        | Return (Some (field, scalars)) =>
            match collect l' scalars with
            | Raise e => Raise e
            | Return (rest, last_scalars) =>
                Return (if decide (field <> NONE)
                        then (field, scalars, block) :: rest else rest,
                        last_scalars)
            end
        end
    end.

(** [set_active_scalars] below the first loop. *)
Definition resolve_assoc (name : option string) (preference : preference)
    (blocks : list block) (data_assoc : list assoc) (scalars : ndarray)
    : outcome (FieldAssociation * ndarray) :=
  match name with
  | None => Return (NONE, empty_array)
  | Some _ =>
      match data_assoc with
      | [] => Raise KeyError
      | (first, _, _) :: _ =>
          let preference_ := parse_field_choice preference in
          let field_asc := choose_field first preference_ data_assoc in
          let '(dims, dtypes, scalars) :=
            verify_loops blocks data_assoc field_asc scalars in
          if decide (1 < size dims)%nat then Raise ValueError
          else
            let is_complex := is_complexfloating <$> elements dtypes in
            if existsb id is_complex && negb (forallb id is_complex)
            then Raise ValueError
            else Return (field_asc, scalars)
      end
  end.

(** [set_active_scalars(name, preference, allow_missing)].  The activation
    itself happens inside the leaf datasets; the composite reads what they
    answer. *)
Fixpoint set_active_scalars (self : MultiBlock) (name : option string)
    (preference : preference) (allow_missing : bool)
    : outcome (FieldAssociation * ndarray) :=
  match self with
  | MB _ s _ =>
      match collect_assoc
              (fun m => set_active_scalars m name preference allow_missing)
              name preference allow_missing s empty_array with
      | Raise e => Raise e
      | Return (data_assoc, scalars) =>
          resolve_assoc name preference (snd <$> s) data_assoc scalars
      end
  end.

(** ** Further methods of the sequence and mapping protocols *)

(** [__len__] *)
Definition __len__ (self : MultiBlock) : nat := n_blocks self.

(** [get(index, default)] *)
Definition get (index : string) (default : block) : M block :=
  fun self =>
    match __getitem__ (KStr index) self with
    | (self', Raise KeyError) => (self', Return default)
    | r => r
    end.

(** [pop(index)]; [pop()] is [pop (KInt (-1))]. *)
Definition pop (index : key) : M block :=
  let! index :=
    match index with
    | KInt i =>
        let! k := (fun self => lift (range_getitem (n_blocks self) i) self) in
        ret (KInt (Z.of_nat k))
    | KStr s => ret (KStr s)
    end in
  let! data := __getitem__ index in
  __delitem__ index >>
  ret data.

(** What [extend] may be given: another [MultiBlock], or any other iterable,
    as the list of its elements. *)
Inductive iterable := IterMulti (datasets : MultiBlock) | IterList (datasets : list pyobject).

(** [extend(datasets)].  [zip(datasets.keys(), datasets)] pairs the names,
    read at once, with the blocks [datasets[0], datasets[1], ...]. *)
Definition extend (datasets : iterable) : M unit :=
  match datasets with
  | IterMulti datasets =>
      for_each (zip (keys datasets) (iter_blocks datasets))
        (fun '(key, data) => append (PyBlock data) key)
  | IterList datasets => for_each datasets (fun v => append v None)
  end.

(** [reverse()] (the list function of that name is [reverse]).  The tuple
    assignment reads [self[n - i - 1]], then [self[i]], and then assigns
    [self[i]] and [self[n - i - 1]] in this order. *)
Definition MultiBlock_reverse : M unit :=
  fun self =>
    let names := keys self in
    let n := __len__ self in
    (for_each (seq 0 (n / 2))
       (fun i =>
          let! a := __getitem__ (KInt (Z.of_nat n - Z.of_nat i - 1)) in
          let! b := __getitem__ (KInt (Z.of_nat i)) in
          __setitem__ (KInt (Z.of_nat i)) a >>
          __setitem__ (KInt (Z.of_nat n - Z.of_nat i - 1)) b) >>
     for_each (imap (fun i name => (i, name)) (reverse names))
       (fun '(i, name) => set_block_name (Z.of_nat i) name)) self.

(** [__getitem__] for a slice: a new [MultiBlock()], whose address is
    [fresh], filled with [multi.append(self[i], self.get_block_name(i))]. *)
Definition __getitem__slice (fresh : addr) (index : slice) (self : MultiBlock)
    : outcome MultiBlock :=
  match range_getslice (n_blocks self) index with
  | Raise e => Raise e
  | Return index_iter =>
      let '(multi, r) :=
        for_each index_iter
          (fun i =>
             let! b := lift (snd (__getitem__ (KInt i) self)) in
             let! nm := lift (snd (get_block_name i self)) in
             append (PyBlock b) nm)
          (MB fresh [] ∅) in
      match r with
      | Return _ => Return multi
      | Raise e => Raise e
      end
  end.

(** The slot that [insert] at [k] leaves for the slot it moves from position
    [k + j] to [k + j + 1]: the block with its name, or with the generated
    default of the new position when it had no name. *)
Definition shifted (k j : nat) (sl : slot) : slot :=
  (Some (default (default_name (k + j + 1)) sl.1), sl.2).

(** A property of every leaf dataset of a container, through the nested
    containers. *)
Definition slots_leaves (nested : MultiBlock -> Prop) (P : DataSet -> Prop)
    : list slot -> Prop :=
  fix all (l : list slot) : Prop :=
    match l with
    | [] => True
    | (_, b) :: l' =>
        match b with
        | BNone => True
        | BData d => P d
        | BMulti m => nested m
        end /\ all l'
    end.

Fixpoint all_leaves (P : DataSet -> Prop) (self : MultiBlock) : Prop :=
  match self with
  | MB _ s _ => slots_leaves (all_leaves P) P s
  end.

(** What a block contributes to the resolution of the field [name]: the
    association and the array that a leaf answers, or that a nested container
    resolves to; nothing when that fails or is the none association. *)
Definition contribution (name : string) (preference : preference)
    (allow_missing : bool) (b : block) : option (FieldAssociation * ndarray) :=
  match b with
  | BNone => None
  | BData d =>
      match ds_set_active_scalars d (Some name) preference with
      | Return (field, Some scalars) =>
          if decide (field = NONE) then None else Some (field, scalars)
      | _ => None
      end
  | BMulti m =>
      match set_active_scalars m (Some name) preference allow_missing with
      | Return (field, scalars) =>
          if decide (field = NONE) then None else Some (field, scalars)
      | Raise _ => None
      end
  end.

Definition contributions (name : string) (preference : preference)
    (allow_missing : bool) (self : MultiBlock)
    : list (FieldAssociation * ndarray) :=
  omap (contribution name preference allow_missing) (iter_blocks self).

(** What the consistency loops have gathered: [scalars] is the array of the
    last entry of [data_assoc], and the entries of the chosen association have
    their dimensions and dtypes in the two sets. *)
Definition gathered (data_assoc : list assoc) (field_asc : FieldAssociation)
    (st : gset nat * gset dtype * ndarray) : Prop :=
  last ((fun e : assoc => e.1.2) <$> data_assoc) = Some st.2 /\
  forall e : assoc, e ∈ data_assoc -> e.1.1 = field_asc ->
    ndim e.1.2 ∈ st.1.1 /\ arr_dtype e.1.2 ∈ st.1.2.

(** ** Containers used as examples *)

(** A box of eight points with the bounds [b], without field data. *)
Definition box_dataset (a : addr) (b : BoundsTuple) : DataSet :=
  mkDataSet a true b 8
    (fun name _ =>
       match name with
       | None => Return (NONE, None)
       | Some _ => Raise KeyError
       end).

(** The unit box. *)
Definition example_dataset (a : addr) : DataSet :=
  box_dataset a (mkBounds 0 1 0 1 0 1).

(** [MultiBlock()] *)
Definition empty_container : MultiBlock := MB 100%N [] ∅.

(** [c = MultiBlock(); c.append(mesh, 'x')] *)
Definition named_one : MultiBlock :=
  fst (append (PyBlock (BData (example_dataset 1%N))) (Some "x"%string) empty_container).

(** [c = MultiBlock(); c.n_blocks = 1] *)
Definition unnamed_one : MultiBlock :=
  fst (n_blocks_setter 1 empty_container).

(** [MultiBlock([mesh1, mesh2, mesh3])] *)
Definition three_blocks : MultiBlock :=
  fst ((append (PyBlock (BData (example_dataset 1%N))) None >>
        append (PyBlock (BData (example_dataset 2%N))) None >>
        append (PyBlock (BData (example_dataset 3%N))) None) empty_container).


(** A dataset at address [a] that carries the scalar field ["T"] under the
    association [field] and no other field. *)
Definition field_dataset (a : addr) (field : FieldAssociation) : DataSet :=
  mkDataSet a true (mkBounds 0 1 0 1 0 1) 8
    (fun name _ =>
       match name with
       | None => Return (NONE, None)
       | Some nm =>
           if decide (nm = "T"%string) then Return (field, Some empty_array)
           else Raise KeyError
       end).

(** A block with only a point field ["T"] and a block with only a cell field
    ["T"]; the same with a third block that has a point field ["T"]. *)
Definition point_cell : MultiBlock :=
  fst ((append (PyBlock (BData (field_dataset 1%N POINT))) None >>
        append (PyBlock (BData (field_dataset 2%N CELL))) None) empty_container).
Definition point_cell_point : MultiBlock :=
  fst (append (PyBlock (BData (field_dataset 3%N POINT))) None point_cell).

(** A dataset that carries the field ["T"] under the association [field]
    with the array [scalars], and no other field. *)
Definition array_dataset (a : addr) (field : FieldAssociation) (scalars : ndarray)
    : DataSet :=
  mkDataSet a true (mkBounds 0 1 0 1 0 1) 8
    (fun name _ =>
       match name with
       | None => Return (NONE, None)
       | Some nm =>
           if decide (nm = "T"%string) then Return (field, Some scalars)
           else Raise KeyError
       end).

(** An array of two dimensions. *)
Definition matrix_array : ndarray :=
  {| ndim := 2; arr_dtype := {| dt_kind := kind_float; dt_itemsize := 8 |} |}.

(** A block with a cell field ["T"] of one dimension, then a block with a
    point field ["T"] of two dimensions. *)
Definition cell_then_point : MultiBlock :=
  fst ((append (PyBlock (BData (array_dataset 1%N CELL empty_array))) None >>
        append (PyBlock (BData (array_dataset 2%N POINT matrix_array))) None)
         empty_container).

(** An array of one dimension, [float32]. *)
Definition float32_array : ndarray :=
  {| ndim := 1; arr_dtype := {| dt_kind := kind_float; dt_itemsize := 4 |} |}.

(** Two blocks with a cell field ["T"], of [float64] and of [float32]. *)
Definition two_cells : MultiBlock :=
  fst ((append (PyBlock (BData (array_dataset 1%N CELL empty_array))) None >>
        append (PyBlock (BData (array_dataset 2%N CELL float32_array))) None)
         empty_container).

(** A block with a point field ["T"], then an empty nested container. *)
Definition point_then_empty_nested : MultiBlock :=
  fst ((append (PyBlock (BData (field_dataset 1%N POINT))) None >>
        append (PyBlock (BMulti (MB 50%N [] ∅))) None) empty_container).

(** ** Notions used in the statements *)

(** Modelled from the spec: the error taxonomy of the design names the
    failures by their cause.  [append] raises two errors of its own,
    [ValueError] when the dataset is the container itself and [TypeError] when
    it is no dataset; the taxonomy calls both a type mismatch.  The index and
    name errors come from the addressing. *)
Inductive error_kind :=
  OutOfRange | NotFound | TypeMismatch | InconsistentField | InvalidArgument.

Definition append_error_kind (e : exn) : option error_kind :=
  match e with
  | ValueError | TypeError => Some TypeMismatch
  | IndexError => Some OutOfRange
  | KeyError => Some NotFound
  | OverflowError => None
  end.

(** The [_refs] keys after the object at a slot has been dropped, and after
    an object has been stored. *)
Definition drop_ref (b : block) (r : gset addr) : gset addr :=
  match memory_address b with
  | Some a => r ∖ {[a]}
  | None => r
  end.
Definition add_ref (b : block) (r : gset addr) : gset addr :=
  match memory_address b with
  | Some a => {[a]} ∪ r
  | None => r
  end.

(** The state a single-slot assignment leaves. *)
Definition assigned (k : nat) (name : string) (data : block) (self : MultiBlock)
    : MultiBlock :=
  MB (address self) (<[k := (Some name, data)]> (slots self))
     (add_ref data (drop_ref (GetBlock k self) (refs self))).

(** Induction on a container, with the property for the nested containers
    of its slots. *)
Definition MultiBlock_nested_ind (P : MultiBlock -> Prop)
    (step : forall a s r,
        Forall (fun sl : slot =>
                  match sl.2 with BMulti m => P m | _ => True end) s ->
        P (MB a s r)) : forall self, P self :=
  fix go (self : MultiBlock) : P self :=
    match self with
    | MB a s r =>
        step a s r
          ((fix go_slots (l : list slot)
              : Forall (fun sl : slot =>
                          match sl.2 with BMulti m => P m | _ => True end) l :=
              match l with
              | [] => @List.Forall_nil _ _
              | (nm, b) :: l' =>
                  @List.Forall_cons _ _ (nm, b) l'
                    (match b as b
                       return match b with BMulti m => P m | _ => True end with
                     | BMulti m => go m
                     | _ => I
                     end)
                    (go_slots l')
              end) s)
    end.


(** A container is clean: no slot is [None], no leaf dataset has zero
    points, and every nested container is clean and has at least one block. *)
Definition slot_clean (nested_clean : MultiBlock -> Prop) (sl : slot) : Prop :=
  match sl.2 with
  | BNone => False
  | BData d => ~ ds_n_points d < 1
  | BMulti m => nested_clean m /\ (1 <= n_blocks m)%nat
  end.

Definition slots_clean (nested_clean : MultiBlock -> Prop) : list slot -> Prop :=
  fix all (l : list slot) : Prop :=
    match l with
    | [] => True
    | sl :: l' => slot_clean nested_clean sl /\ all l'
    end.

Fixpoint is_clean (self : MultiBlock) : Prop :=
  match self with
  | MB _ s _ => slots_clean is_clean s
  end.

(** The slots after the first loop of [clean], each with its mark (is it in
    [null_blocks]?): the positions marked from [i] on, and the slots kept. *)
Fixpoint positions (i : Z) (marked : list (bool * slot)) : list Z :=
  match marked with
  | [] => []
  | (flag, _) :: rest =>
      if flag then i :: positions (i + 1) rest else positions (i + 1) rest
  end.

Fixpoint kept (marked : list (bool * slot)) : list slot :=
  match marked with
  | [] => []
  | (flag, sl) :: rest => if flag then kept rest else sl :: kept rest
  end.

(** The second loop of [clean] on the entries of [null_blocks] still to
    visit, each of them [done] less than it was at first. *)
Fixpoint remove_all (done : Z) (null_blocks : list Z) : M unit :=
  match null_blocks with
  | [] => ret tt
  | idx :: rest => __delitem__ (KInt (idx - done)) >> remove_all (done + 1) rest
  end.

(** What [clean(empty)] keeps of a slot: nothing of a [None] block, of a leaf
    without points when [empty] is set, and of a nested container that its own
    cleanup leaves without blocks; else the slot, a nested container as its
    cleanup (always with [empty=True]) has left it. *)
Definition survivor (empty : bool) (sl : slot) : option slot :=
  match sl.2 with
  | BNone => None
  | BData d => if empty && (ds_n_points d <? 1) then None else Some sl
  | BMulti m =>
      let m' := (clean true m).1 in
      if bool_decide (n_blocks m' < 1)%nat then None else Some (sl.1, BMulti m')
  end.

(** The box [outer] encloses the box [inner], coordinate by coordinate. *)
Definition encloses (outer inner : BoundsTuple) : Prop :=
  (x_min outer <= x_min inner)%Q /\ (x_max inner <= x_max outer)%Q /\
  (y_min outer <= y_min inner)%Q /\ (y_max inner <= y_max outer)%Q /\
  (z_min outer <= z_min inner)%Q /\ (z_max inner <= z_max outer)%Q.

(** The container after the blocks of [named] have been appended one by
    one, each with its name or, without one, with the generated default of
    the position it comes to. *)
Definition appended (named : list slot) (self : MultiBlock) : MultiBlock :=
  MB (address self)
     (slots self ++
      imap (fun i (sl : slot) =>
              (Some (default (default_name (n_blocks self + i)) sl.1), sl.2)) named)
     (foldl (fun r (sl : slot) => add_ref sl.2 r) (refs self) named).

(** The slot at the position [i]: its name and its block. *)
Definition slot_at (self : MultiBlock) (i : Z) : slot :=
  (GetMetaDataName (Z.to_nat i) self, GetBlock (Z.to_nat i) self).

(** The slots of [s], each marked when its position is among [index_iter]. *)
Definition marked_at (index_iter : list Z) (s : list slot) : list (bool * slot) :=
  imap (fun i sl => (bool_decide (Z.of_nat i ∈ index_iter), sl)) s.

(** The positions go down strictly. *)
Fixpoint descending (ps : list Z) : Prop :=
  match ps with
  | [] => True
  | p :: ps' => Forall (fun q => q < p) ps' /\ descending ps'
  end.

(** The name that [reverse] leaves at the position [p] of a container of
    [n] blocks, for the block that comes there with the name [name]: that
    name, or without one the generated default of [p]; the middle block of an
    odd number is never assigned and stays unnamed. *)
Definition reversed_name (n p : nat) (name : option string) : option string :=
  match name with
  | Some _ => name
  | None => if bool_decide (n = 2 * p + 1)%nat then None else Some (default_name p)
  end.

(** The state of [reverse] after [j] swaps, on the container [self]: the
    [j] outer positions on either side hold the block of the mirrored
    position under a default name, the positions between them are as in
    [self], and [_refs] does not hold a moved block of the upper half unless
    a block of the lower half has the same address. *)
Definition swapped (self : MultiBlock) (j : nat) (st : MultiBlock) : Prop :=
  let n := n_blocks self in
  address st = address self /\
  n_blocks st = n /\
  (forall p, (p < n)%nat ->
     slots st !! p =
     if bool_decide (p < j \/ n - j <= p)%nat
     then Some (Some (default_name p), GetBlock (n - 1 - p) self)
     else slots self !! p) /\
  (forall q a, (n - j <= q < n)%nat ->
     memory_address (GetBlock q self) = Some a ->
     (forall i, (i < n / 2)%nat -> memory_address (GetBlock i self) <> Some a) ->
     a ∉ refs st).

(** [name if name is not None else sl's name], with the block of [sl]. *)
Definition renamed (name : option string) (sl : slot) : slot :=
  (match name with Some _ => name | None => sl.1 end, sl.2).

(** The body of the loop of [__setitem__] for a slice, with [index_iter]
    the positions of the slice. *)
Definition setitem_slice_body (index_iter : list Z)
    : nat * (option Z * block) -> M unit :=
  fun '(i, (idx, d)) =>
    match idx with
    | None =>
        let! l := lift (range_last index_iter) in
        insert (l + 1 + (Z.of_nat i - Z.of_nat (length index_iter))) d None
    | Some idx =>
        if is_None d then
          let! l := lift (range_last index_iter) in
          __delitem__ (KInt (l + 1))
        else __setitem__ (KInt idx) d
    end.

(** A leaf dataset does not carry the field [name]: activating it raises
    [KeyError] (and deactivating, with the name [None], does not raise). *)
Definition leaf_lacks (name : string) (preference : preference) (d : DataSet) : Prop :=
  ds_set_active_scalars d (Some name) preference = Raise KeyError /\
  exists r, ds_set_active_scalars d None preference = Return r.

(** No block carries the field [name], transitively through the nested
    containers. *)
Definition blocks_lack (nested_lacks : MultiBlock -> Prop) (name : string)
    (preference : preference) : list slot -> Prop :=
  fix lack (l : list slot) : Prop :=
    match l with
    | [] => True
    | (_, b) :: l' =>
        match b with
        | BNone => True
        | BData d => leaf_lacks name preference d
        | BMulti m => nested_lacks m
        end /\ lack l'
    end.

Fixpoint lacks_field (name : string) (preference : preference)
    (self : MultiBlock) : Prop :=
  match self with
  | MB _ s _ => blocks_lack (lacks_field name preference) name preference s
  end.

(** The association under which a block offers the field [name]: what a leaf
    answers to the activation, or what a nested container resolves to; no
    offer when that fails or is the none association. *)
Definition offers (name : string) (preference : preference) (allow_missing : bool)
    (b : block) : option FieldAssociation :=
  match b with
  | BNone => None
  | BData d =>
      match ds_set_active_scalars d (Some name) preference with
      | Return (field, Some _) => if decide (field = NONE) then None else Some field
      | _ => None
      end
  | BMulti m =>
      match set_active_scalars m (Some name) preference allow_missing with
      | Return (field, _) => if decide (field = NONE) then None else Some field
      | Raise _ => None
      end
  end.

(** The offers of the contributing blocks, in traversal order. *)
Definition contributing_fields (name : string) (preference : preference)
    (allow_missing : bool) (self : MultiBlock) : list FieldAssociation :=
  omap (offers name preference allow_missing) (iter_blocks self).


(** What a block contributes to the bounds of its container: nothing when it
    is [None] or empty, else its bounds; a nested container contributes its
    own aggregated bounds, as a leaf would. *)
Definition contributes (b : block) : option BoundsTuple :=
  match b with
  | BNone => None
  | BData d => if ds_truth d then Some (ds_bounds d) else None
  | BMulti m => if bool_decide (0 < n_blocks m)%nat then Some (bounds m) else None
  end.

Definition contributing_bounds (self : MultiBlock) : list BoundsTuple :=
  omap (fun sl : slot => contributes sl.2) (slots self).

(** [v] is the minimum (maximum) of the values [l]. *)
Definition is_minimum_of (v : Q) (l : list Q) : Prop :=
  v ∈ l /\ forall x, x ∈ l -> (v <= x)%Q.
Definition is_maximum_of (v : Q) (l : list Q) : Prop :=
  v ∈ l /\ forall x, x ∈ l -> (x <= v)%Q.

(** * Properties *)

(** ** Addressing lemmas *)

Lemma bind_Return {A B} (m : M A) (k : A -> M B) (self self' : MultiBlock) (a : A) :
  m self = (self', Return a) -> bind m k self = k a self'.
Proof. intros H. unfold bind. by rewrite H. Qed.

Lemma bind_Raise {A B} (m : M A) (k : A -> M B) (self self' : MultiBlock) (e : exn) :
  m self = (self', Raise e) -> bind m k self = (self', Raise e).
Proof. intros H. unfold bind. by rewrite H. Qed.

Lemma range_getitem_Return (n : nat) (i : Z) (k : nat) :
  range_getitem n i = Return k <->
  - Z.of_nat n <= i < Z.of_nat n /\
  k = Z.to_nat (if i <? 0 then Z.of_nat n + i else i).
Proof.
  unfold range_getitem.
  destruct (i <? - Z.of_nat n) eqn:E1; destruct (Z.of_nat n <=? i) eqn:E2; simpl;
    split; intros H; try discriminate; try lia.
  - inversion H; subst. split; [lia | reflexivity].
  - destruct H as [_ ->]. reflexivity.
Qed.

Lemma range_getitem_Raise (n : nat) (i : Z) (e : exn) :
  range_getitem n i = Raise e <->
  (i < - Z.of_nat n \/ Z.of_nat n <= i) /\ e = IndexError.
Proof.
  unfold range_getitem.
  destruct (i <? - Z.of_nat n) eqn:E1; destruct (Z.of_nat n <=? i) eqn:E2; simpl;
    split; intros H; try discriminate; try (inversion H; subst; split; [lia | reflexivity]);
    try (destruct H as [_ ->]; reflexivity); lia.
Qed.

Lemma range_getitem_lt (n : nat) (i : Z) (k : nat) :
  range_getitem n i = Return k -> (k < n)%nat.
Proof.
  intros [H ->]%range_getitem_Return. destruct (i <? 0) eqn:E; lia.
Qed.

Lemma range_getitem_nat (n k : nat) :
  (k < n)%nat -> range_getitem n (Z.of_nat k) = Return k.
Proof.
  intros H. apply range_getitem_Return. split; [lia |].
  destruct (Z.of_nat k <? 0) eqn:E; lia.
Qed.

Lemma getitem_nat (self : MultiBlock) (k : nat) :
  (k < n_blocks self)%nat ->
  __getitem__ (KInt (Z.of_nat k)) self = (self, Return (GetBlock k self)).
Proof.
  intros H. unfold __getitem__, bind, ret, raise. simpl.
  destruct (Z.of_nat k <? - Z.of_nat (n_blocks self)) eqn:E1; [lia |].
  destruct (Z.of_nat k >=? Z.of_nat (n_blocks self)) eqn:E2; [lia |]. simpl.
  destruct (Z.of_nat k <? 0) eqn:E3; [lia |].
  by rewrite Nat2Z.id.
Qed.

Lemma getitem_out_of_range (self : MultiBlock) (i : Z) :
  i < - Z.of_nat (n_blocks self) \/ Z.of_nat (n_blocks self) <= i ->
  __getitem__ (KInt i) self = (self, Raise IndexError).
Proof.
  intros H. unfold __getitem__, bind, ret, raise. simpl.
  destruct (i <? - Z.of_nat (n_blocks self)) eqn:E1;
    destruct (i >=? Z.of_nat (n_blocks self)) eqn:E2; simpl; try reflexivity; lia.
Qed.

Lemma _remove_ref_nat (self : MultiBlock) (k : nat) :
  (k < n_blocks self)%nat ->
  _remove_ref (Z.of_nat k) self =
  (with_refs (drop_ref (GetBlock k self) (refs self)) self, Return tt).
Proof.
  intros H. unfold _remove_ref, bind. rewrite getitem_nat by done.
  unfold drop_ref. destruct (memory_address (GetBlock k self)); [done |].
  by destruct self.
Qed.

Lemma SetBlock_in_range (self : MultiBlock) (k : nat) (data : block) :
  (k < n_blocks self)%nat ->
  SetBlock k data self =
  (with_slots (alter (fun sl => (sl.1, data)) k (slots self)) self, Return tt).
Proof.
  intros H. unfold SetBlock, modify. by rewrite decide_True.
Qed.

Lemma set_block_name_nat (self : MultiBlock) (k : nat) (name : string) :
  (k < n_blocks self)%nat ->
  set_block_name (Z.of_nat k) (Some name) self =
  (with_slots (alter (fun sl => (Some name, sl.2)) k (slots self)) self, Return tt).
Proof.
  intros H. unfold set_block_name, bind, lift. by rewrite range_getitem_nat.
Qed.

Lemma set_block_name_None (self : MultiBlock) (i : Z) :
  set_block_name i None self = (self, Return tt).
Proof. reflexivity. Qed.

Lemma setitem_single_in_range (self : MultiBlock) (i : Z) (k : nat)
    (name : option string) (data : block) :
  range_getitem (n_blocks self) i = Return k ->
  setitem_single i name data self =
  (assigned k (default (default_name k) name) data self, Return tt).
Proof.
  intros Hi. pose proof (range_getitem_lt _ _ _ Hi) as Hk.
  unfold setitem_single.
  erewrite bind_Return; [| unfold lift; by rewrite Hi].
  erewrite bind_Return; [| reflexivity].
  rewrite (bind_Return _ _ _
             (with_refs (drop_ref (GetBlock k self) (refs self)) self) tt).
  2:{ destruct (is_None (GetBlock k self)) eqn:E.
      - destruct (GetBlock k self); try discriminate. by destruct self.
      - by apply _remove_ref_nat. }
  erewrite bind_Return; [| apply SetBlock_in_range; by destruct self].
  set (st := with_slots _ _).
  rewrite (bind_Return _ _ _ (with_refs (add_ref data (refs st)) st) tt).
  2:{ unfold add_ref, wrap, store_ref, modify.
      destruct data; simpl; try done; by destruct st. }
  rewrite set_block_name_nat.
  2:{ subst st. destruct self; simpl in *. unfold n_blocks, GetNumberOfBlocks; simpl.
      by rewrite length_alter. }
  subst st. destruct self as [a s r]; simpl. unfold assigned, with_slots, wrap; simpl.
  f_equal. f_equal.
  rewrite list_alter_alter_eq, list_insert_alter.
  apply list_alter_ext; [| done]. intros [nm b] _. simpl. by destruct name.
Qed.

Lemma n_blocks_assigned (k : nat) (name : string) (data : block) (self : MultiBlock) :
  n_blocks (assigned k name data self) = n_blocks self.
Proof. unfold n_blocks, GetNumberOfBlocks, assigned. simpl. apply length_insert. Qed.

Lemma GetMetaDataName_assigned_eq (k : nat) (name : string) (data : block)
    (self : MultiBlock) :
  (k < n_blocks self)%nat ->
  GetMetaDataName k (assigned k name data self) = Some name.
Proof.
  intros H. unfold GetMetaDataName, assigned. simpl.
  by rewrite list_lookup_insert_eq.
Qed.

Lemma GetBlock_assigned_eq (k : nat) (name : string) (data : block)
    (self : MultiBlock) :
  (k < n_blocks self)%nat -> GetBlock k (assigned k name data self) = data.
Proof.
  intros H. unfold GetBlock, assigned. simpl. by rewrite list_lookup_insert_eq.
Qed.

Lemma lookup_assigned_ne (k j : nat) (name : string) (data : block)
    (self : MultiBlock) :
  j <> k -> slots (assigned k name data self) !! j = slots self !! j.
Proof. intros H. unfold assigned. simpl. by apply list_lookup_insert_ne. Qed.

(** ** Single-slot assignment and names *)

(** C2 (as amended): index assignment at a valid integer position, which
    carries no explicit name, succeeds, stores the payload there and sets the
    name of that slot to the generated default ["Block-%02d"] of the resolved
    position, whatever name the slot carried before; the other slots keep
    their names. *)
Theorem setitem_int_assigns_default_name (self : MultiBlock) (i : Z) (k : nat)
    (data : block) :
  range_getitem (n_blocks self) i = Return k ->
  exists self',
    __setitem__ (KInt i) data self = (self', Return tt) /\
    GetBlock k self' = data /\
    GetMetaDataName k self' = Some (default_name k) /\
    (forall j, j <> k -> GetMetaDataName j self' = GetMetaDataName j self).
Proof.
  intros Hi. pose proof (range_getitem_lt _ _ _ Hi) as Hk.
  exists (assigned k (default_name k) data self). repeat split.
  - simpl. unfold setitem_int. by rewrite (setitem_single_in_range _ _ k).
  - by apply GetBlock_assigned_eq.
  - by apply GetMetaDataName_assigned_eq.
  - intros j Hj. unfold GetMetaDataName. by rewrite lookup_assigned_ne.
Qed.

Lemma setitem_int_assigns_default_name_witness :
  exists self',
    __setitem__ (KInt (-1)) (BData (example_dataset 2%N)) named_one = (self', Return tt) /\
    GetBlock 0 self' = BData (example_dataset 2%N) /\
    GetMetaDataName 0 self' = Some (default_name 0) /\
    (forall j, j <> 0%nat -> GetMetaDataName j self' = GetMetaDataName j named_one).
Proof.
  apply (setitem_int_assigns_default_name named_one (-1) 0). reflexivity.
Defined.

(** C2 (as stated) fails: the slot is named ["x"]; after [c[0] = payload] its
    name is ["Block-00"]. *)
Lemma setitem_int_erases_name :
  GetMetaDataName 0 named_one = Some "x"%string /\
  GetMetaDataName 0 (fst (__setitem__ (KInt 0) (BData (example_dataset 2%N)) named_one))
    = Some "Block-00"%string /\
  GetMetaDataName 0 (fst (__setitem__ (KInt 0) (BData (example_dataset 2%N)) named_one))
    <> GetMetaDataName 0 named_one.
Proof. vm_compute. repeat split; congruence. Qed.

(** ** Replacement *)

(** C5 (as amended): [replace] at a valid index succeeds, stores the payload
    there, and leaves the slot with the name it had when that name is a
    string; a slot without a name is left with the generated default.  Every
    other slot is unchanged. *)
Theorem replace_keeps_string_name (self : MultiBlock) (i : Z) (k : nat)
    (data : block) :
  range_getitem (n_blocks self) i = Return k ->
  exists self',
    replace i data self = (self', Return tt) /\
    slots self' =
      <[k := (Some (default (default_name k) (GetMetaDataName k self)), data)]>
        (slots self).
Proof.
  intros Hi. pose proof (range_getitem_lt _ _ _ Hi) as Hk.
  unfold replace.
  erewrite bind_Return; [| unfold get_block_name; erewrite bind_Return;
                           [reflexivity | unfold lift; by rewrite Hi]].
  erewrite bind_Return;
    [| simpl; unfold setitem_int; by apply setitem_single_in_range].
  destruct (GetMetaDataName k self) as [nm |] eqn:E.
  - unfold set_block_name.
    erewrite bind_Return;
      [| unfold lift; rewrite n_blocks_assigned; by rewrite Hi].
    eexists. split; [reflexivity |]. simpl.
    rewrite list_insert_alter, list_alter_alter_eq, list_insert_alter.
    by apply list_alter_ext.
  - eexists. split; [reflexivity |]. reflexivity.
Qed.

Lemma replace_keeps_string_name_witness :
  exists self',
    replace (-1) (BData (example_dataset 2%N)) named_one = (self', Return tt) /\
    slots self' =
      <[0%nat := (Some (default (default_name 0) (GetMetaDataName 0 named_one)),
                  BData (example_dataset 2%N))]> (slots named_one).
Proof.
  apply (replace_keeps_string_name named_one (-1) 0). reflexivity.
Defined.

(** C5 (as stated) fails on a slot without a name: the slot that
    [n_blocks = 1] has made carries no name; after [replace] it is named
    ["Block-00"]. *)
Lemma replace_names_unnamed_slot :
  GetMetaDataName 0 unnamed_one = None /\
  snd (replace 0 (BData (example_dataset 2%N)) unnamed_one) = Return tt /\
  GetMetaDataName 0 (fst (replace 0 (BData (example_dataset 2%N)) unnamed_one))
    = Some "Block-00"%string /\
  GetMetaDataName 0 (fst (replace 0 (BData (example_dataset 2%N)) unnamed_one))
    <> GetMetaDataName 0 unnamed_one.
Proof. vm_compute. repeat split; congruence. Qed.

(** ** Self-containment *)

Lemma append_is_self (self : MultiBlock) (data : block) (name : option string) :
  is_self data self = true ->
  append (PyBlock data) name self = (self, Raise ValueError).
Proof. intros H. unfold append. by rewrite H. Qed.

(** C7: [c.append(c)] fails and leaves the container as it was: no new
    slot, no new key in [_refs].  The exception is the [ValueError] that
    [append] raises for nesting a container in itself, a type mismatch in the
    error taxonomy of the design. *)
Theorem append_self_raises (self : MultiBlock) (name : option string) :
  append (PyBlock (BMulti self)) name self = (self, Raise ValueError) /\
  append_error_kind ValueError = Some TypeMismatch.
Proof.
  split; [| done].
  apply append_is_self. unfold is_self. by rewrite bool_decide_eq_true_2.
Qed.

(** The two errors of [append] itself are of different exception classes. *)
Lemma append_error_classes :
  snd (append PyArray None empty_container) = Raise TypeError /\
  snd (append (PyBlock (BMulti empty_container)) None empty_container)
    = Raise ValueError.
Proof. vm_compute. by split. Qed.

(** ** Insertion *)

Lemma for_each_invariant {A} (P : MultiBlock -> Prop) (l : list A)
    (body : A -> M unit) (self : MultiBlock) :
  P self ->
  (forall x st, x ∈ l -> P st -> exists st', body x st = (st', Return tt) /\ P st') ->
  exists st', for_each l body self = (st', Return tt) /\ P st'.
Proof.
  revert self. induction l as [| x l IH]; intros self HP Hbody.
  - exists self. by split.
  - destruct (Hbody x self) as (st1 & E1 & HP1); [by left | done |].
    destruct (IH st1) as (st2 & E2 & HP2); [done | |].
    { intros y st Hy. apply Hbody. by right. }
    exists st2. split; [| done]. simpl. by erewrite bind_Return.
Qed.

Lemma setitem_int_nat (self : MultiBlock) (j : nat) (data : block) :
  (j < n_blocks self)%nat ->
  __setitem__ (KInt (Z.of_nat j)) data self =
  (assigned j (default_name j) data self, Return tt).
Proof.
  intros H. simpl. unfold setitem_int.
  by rewrite (setitem_single_in_range _ _ j) by (by apply range_getitem_nat).
Qed.

Lemma get_block_name_nat (self : MultiBlock) (j : nat) :
  (j < n_blocks self)%nat ->
  get_block_name (Z.of_nat j) self = (self, Return (GetMetaDataName j self)).
Proof.
  intros H. unfold get_block_name.
  by erewrite bind_Return; [| unfold lift; by rewrite range_getitem_nat].
Qed.

Lemma set_block_name_keeps_length (self : MultiBlock) (j : nat)
    (name : option string) :
  (j < n_blocks self)%nat ->
  exists st',
    set_block_name (Z.of_nat j) name self = (st', Return tt) /\
    n_blocks st' = n_blocks self.
Proof.
  intros H. destruct name as [nm |].
  - rewrite set_block_name_nat by done. eexists. split; [done |].
    unfold n_blocks, GetNumberOfBlocks. simpl. apply length_alter.
  - exists self. by split.
Qed.

Lemma insert_out_of_range (self : MultiBlock) (index : Z) (dataset : block)
    (name : option string) :
  index < - Z.of_nat (n_blocks self) \/ Z.of_nat (n_blocks self) <= index ->
  insert index dataset name self = (self, Raise IndexError).
Proof.
  intros H. unfold insert.
  erewrite bind_Raise; [reflexivity |].
  unfold lift. f_equal. apply range_getitem_Raise. by split.
Qed.

(** C10: [insert] accepts exactly the indices valid for reading.  Outside
    [-n <= index <= n-1] it raises [IndexError] and leaves the container as it
    was; inside it succeeds and the container has one block more.  In
    particular [insert(n, payload)] raises [IndexError]. *)
Theorem insert_index_range (self : MultiBlock) (index : Z) (dataset : block)
    (name : option string) :
  let n := Z.of_nat (n_blocks self) in
  (index < - n \/ n <= index ->
   insert index dataset name self = (self, Raise IndexError)) /\
  (- n <= index < n ->
   exists self',
     insert index dataset name self = (self', Return tt) /\
     n_blocks self' = S (n_blocks self)) /\
  insert n dataset name self = (self, Raise IndexError).
Proof.
  intros n.
  assert (Hout : forall ix, ix < - n \/ n <= ix ->
            insert ix dataset name self = (self, Raise IndexError)).
  { intros ix H. by apply insert_out_of_range. }
  split; [by apply Hout |]. split; [| apply Hout; lia].
  intros Hin.
  destruct (range_getitem (n_blocks self) index) as [k | e] eqn:Hi.
  2:{ apply range_getitem_Raise in Hi. lia. }
  pose proof (range_getitem_lt _ _ _ Hi) as Hk.
  unfold insert.
  erewrite bind_Return; [| unfold lift; by rewrite Hi].
  erewrite bind_Return; [| reflexivity].
  set (st1 := with_slots _ self).
  assert (Hn1 : n_blocks st1 = S (n_blocks self)).
  { unfold st1, n_blocks, GetNumberOfBlocks. simpl. apply length_resize. }
  destruct (for_each_invariant (fun st => n_blocks st = S (n_blocks self))
              (reverse (seq k (n_blocks st1 - 1 - k)))
              (fun i =>
                 let! b := __getitem__ (KInt (Z.of_nat i)) in
                 __setitem__ (KInt (Z.of_nat i + 1)) b >>
                 let! nm := get_block_name (Z.of_nat i) in
                 set_block_name (Z.of_nat i + 1) nm) st1)
    as (st2 & E2 & Hn2); [done | |].
  { intros i st [Hi1 Hi2]%elem_of_reverse%elem_of_seq Hst.
    rewrite Hn1 in Hi2.
    erewrite bind_Return; [| apply getitem_nat; lia].
    replace (Z.of_nat i + 1) with (Z.of_nat (S i)) by lia.
    erewrite bind_Return; [| apply setitem_int_nat; lia].
    erewrite bind_Return;
      [| apply get_block_name_nat; rewrite n_blocks_assigned; lia].
    destruct (set_block_name_keeps_length
                (assigned (S i) (default_name (S i)) (GetBlock i st) st) (S i)
                (GetMetaDataName i
                   (assigned (S i) (default_name (S i)) (GetBlock i st) st)))
      as (st' & E' & Hn'); [rewrite n_blocks_assigned; lia |].
    exists st'. split; [done |]. by rewrite Hn', n_blocks_assigned. }
  erewrite bind_Return; [| exact E2].
  erewrite bind_Return; [| apply setitem_int_nat; lia].
  destruct (set_block_name_keeps_length
              (assigned k (default_name k) dataset st2) k name)
    as (st' & E' & Hn'); [rewrite n_blocks_assigned; lia |].
  exists st'. split; [done |]. by rewrite Hn', n_blocks_assigned.
Qed.

Lemma insert_index_range_witness :
  insert 1 BNone None named_one = (named_one, Raise IndexError) /\
  exists self',
    insert (-1) BNone None named_one = (self', Return tt) /\
    n_blocks self' = S (n_blocks named_one).
Proof.
  split.
  - apply (proj1 (insert_index_range named_one 1 BNone None)).
    right. vm_compute. discriminate.
  - apply (proj1 (proj2 (insert_index_range named_one (-1) BNone None))).
    vm_compute. split; [discriminate | reflexivity].
Defined.

(** ** Name-keyed assignment *)

Lemma keys_lookup (self : MultiBlock) (i : nat) :
  (i < n_blocks self)%nat -> keys self !! i = Some (GetMetaDataName i self).
Proof.
  intros H. unfold keys. rewrite list_lookup_fmap.
  by rewrite lookup_seq_lt.
Qed.

Lemma keys_length (self : MultiBlock) : length (keys self) = n_blocks self.
Proof. unfold keys. by rewrite length_fmap, length_seq. Qed.

Lemma get_index_by_name_loop_KeyError (s : string) (self : MultiBlock)
    (positions : list nat) :
  (forall i, i ∈ positions ->
     (i < n_blocks self)%nat /\ GetMetaDataName i self <> Some s) ->
  get_index_by_name_loop s positions self = (self, Raise KeyError).
Proof.
  induction positions as [| i rest IH]; intros H; [done |].
  destruct (H i) as [Hi Hne]; [by left |].
  simpl. erewrite bind_Return; [| by apply get_block_name_nat].
  rewrite decide_False by done. apply IH. intros j Hj. apply H. by right.
Qed.

Lemma get_index_by_name_loop_found (s : string) (self : MultiBlock)
    (pre post : list nat) (i : nat) :
  (forall j, j ∈ pre ->
     (j < n_blocks self)%nat /\ GetMetaDataName j self <> Some s) ->
  (i < n_blocks self)%nat -> GetMetaDataName i self = Some s ->
  get_index_by_name_loop s (pre ++ i :: post) self = (self, Return i).
Proof.
  induction pre as [| j pre IH]; intros H Hi Hnm; simpl.
  - erewrite bind_Return; [| by apply get_block_name_nat].
    by rewrite decide_True.
  - destruct (H j) as [Hj Hne]; [by left |].
    erewrite bind_Return; [| by apply get_block_name_nat].
    rewrite decide_False by done. apply IH; [| done..].
    intros t Ht. apply H. by right.
Qed.

Lemma get_index_by_name_KeyError (s : string) (self : MultiBlock) :
  Some s ∉ keys self -> get_index_by_name s self = (self, Raise KeyError).
Proof.
  intros H. unfold get_index_by_name. apply get_index_by_name_loop_KeyError.
  intros i [_ Hi]%elem_of_seq. split; [lia |]. intros Hnm. apply H.
  apply list_elem_of_lookup. exists i. rewrite keys_lookup by lia. by rewrite Hnm.
Qed.

Lemma get_index_by_name_first (s : string) (self : MultiBlock) (i : nat) :
  keys self !! i = Some (Some s) ->
  (forall j, (j < i)%nat -> keys self !! j <> Some (Some s)) ->
  get_index_by_name s self = (self, Return i).
Proof.
  intros Hi Hfirst.
  assert (Hlt : (i < n_blocks self)%nat).
  { rewrite <- keys_length. by eapply lookup_lt_Some. }
  unfold get_index_by_name.
  replace (seq 0 (n_blocks self))
    with (seq 0 i ++ i :: seq (S i) (n_blocks self - S i)).
  2:{ change (i :: seq (S i) (n_blocks self - S i))
        with (seq i (S (n_blocks self - S i))).
      rewrite <- seq_app. f_equal. lia. }
  apply get_index_by_name_loop_found.
  - intros j [_ Hj]%elem_of_seq. split; [lia |]. intros Hnm.
    apply (Hfirst j); [lia |]. rewrite keys_lookup by lia. by rewrite Hnm.
  - done.
  - rewrite keys_lookup in Hi by done. by inversion Hi.
Qed.

Lemma append_block (self : MultiBlock) (data : block) (name : option string) :
  is_self data self = false ->
  append (PyBlock data) name self =
  (MB (address self)
      (slots self ++ [(Some (default (default_name (n_blocks self)) name), data)])
      (add_ref data (refs self)),
   Return tt).
Proof.
  intros Hself. unfold append. rewrite Hself.
  erewrite bind_Return; [| reflexivity].
  set (st1 := with_slots _ self).
  assert (Hs1 : slots st1 = slots self ++ [empty_slot]).
  { unfold st1. simpl. replace (S (n_blocks self)) with (n_blocks self + 1)%nat by lia.
    by rewrite resize_add_eq. }
  assert (Hn1 : n_blocks st1 = S (n_blocks self)).
  { unfold n_blocks, GetNumberOfBlocks. rewrite Hs1, length_app. simpl.
    unfold n_blocks, GetNumberOfBlocks. lia. }
  erewrite bind_Return.
  2:{ unfold setitem_int. apply setitem_single_in_range.
      apply range_getitem_nat. lia. }
  assert (Hfinal : forall nm,
    assigned (n_blocks self) nm (wrap data) st1 =
    MB (address self) (slots self ++ [(Some nm, data)]) (add_ref data (refs self))).
  { intros nm. unfold assigned. f_equal.
    - rewrite Hs1. unfold n_blocks, GetNumberOfBlocks.
      rewrite insert_app_r_alt by done. by rewrite Nat.sub_diag.
    - unfold GetBlock. rewrite Hs1. unfold n_blocks, GetNumberOfBlocks.
      rewrite lookup_app_r by done. rewrite Nat.sub_diag. simpl.
      unfold drop_ref. simpl. by destruct self. }
  destruct name as [nm |].
  - rewrite set_block_name_nat by (rewrite n_blocks_assigned; lia).
    f_equal. rewrite Hfinal. unfold with_slots. simpl. f_equal.
    unfold n_blocks, GetNumberOfBlocks.
    rewrite alter_app_r_alt by done. by rewrite Nat.sub_diag.
  - rewrite set_block_name_None. by rewrite Hfinal.
Qed.




(** ** Slice assignment *)

Lemma for_each_cons {A} (x : A) (l : list A) (body : A -> M unit) :
  for_each (x :: l) body = (body x >> for_each l body).
Proof. reflexivity. Qed.

Lemma setitem_int_nat_length (self : MultiBlock) (j : nat) (data : block) :
  (j < n_blocks self)%nat ->
  exists st,
    __setitem__ (KInt (Z.of_nat j)) data self = (st, Return tt) /\
    n_blocks st = n_blocks self.
Proof.
  intros H. eexists. split; [by apply setitem_int_nat |]. apply n_blocks_assigned.
Qed.

(** C1 (what the code does): on a container of three blocks, assigning five
    payloads, or one payload, to the full slice [[:]] raises [IndexError]; the
    container still has three blocks.  The paired positions are overwritten,
    then [insert(3, ...)] is refused (growth), or [del self[3]] is (shrink). *)
Theorem setitem_full_slice_mismatch_raises (self : MultiBlock) (data : list block) :
  n_blocks self = 3%nat ->
  Forall (fun d => is_None d = false) data ->
  length data = 5%nat \/ length data = 1%nat ->
  exists st,
    __setitem__slice (mkSlice None None None) data self = (st, Raise IndexError) /\
    n_blocks st = 3%nat.
Proof.
  intros Hn Hdata Hlen. unfold __setitem__slice.
  rewrite (bind_Return _ _ self self [0; 1; 2]);
    [| unfold lift; rewrite Hn; reflexivity].
  destruct Hlen as [Hlen | Hlen].
  - destruct data as [| d0 [| d1 [| d2 [| d3 [| d4 [| ? ?]]]]]]; try discriminate.
    apply Forall_cons in Hdata as [H0 Hdata].
    apply Forall_cons in Hdata as [H1 Hdata].
    apply Forall_cons in Hdata as [H2 Hdata].
    change (imap _ _) with
      [(0%nat, (Some 0, d0)); (1%nat, (Some 1, d1)); (2%nat, (Some 2, d2));
       (3%nat, (None, d3)); (4%nat, (None, d4))].
    destruct (setitem_int_nat_length self 0 d0) as (st1 & E1 & N1); [lia |].
    destruct (setitem_int_nat_length st1 1 d1) as (st2 & E2 & N2); [lia |].
    destruct (setitem_int_nat_length st2 2 d2) as (st3 & E3 & N3); [lia |].
    exists st3. split; [| lia].
    rewrite for_each_cons. cbv beta iota. rewrite H0.
    erewrite bind_Return; [| exact E1].
    rewrite for_each_cons. cbv beta iota. rewrite H1.
    erewrite bind_Return; [| exact E2].
    rewrite for_each_cons. cbv beta iota. rewrite H2.
    erewrite bind_Return; [| exact E3].
    rewrite for_each_cons. cbv beta iota.
    erewrite bind_Raise; [reflexivity |].
    rewrite (bind_Return _ _ st3 st3 2); [| reflexivity].
    apply insert_out_of_range. simpl. lia.
  - destruct data as [| d0 [| ? ?]]; try discriminate.
    apply Forall_cons in Hdata as [H0 Hdata].
    change (imap _ _) with
      [(0%nat, (Some 0, d0)); (1%nat, (Some 1, BNone)); (2%nat, (Some 2, BNone))].
    destruct (setitem_int_nat_length self 0 d0) as (st1 & E1 & N1); [lia |].
    exists st1. split; [| lia].
    rewrite for_each_cons. cbv beta iota. rewrite H0.
    erewrite bind_Return; [| exact E1].
    rewrite for_each_cons. cbv beta iota. cbn [is_None].
    erewrite bind_Raise; [reflexivity |].
    rewrite (bind_Return _ _ st1 st1 2); [| reflexivity].
    unfold __delitem__.
    erewrite bind_Return; [| reflexivity].
    erewrite bind_Raise; [reflexivity |].
    unfold _remove_ref.
    erewrite bind_Raise; [reflexivity |].
    apply getitem_out_of_range. lia.
Qed.

Lemma setitem_full_slice_mismatch_raises_witness :
  exists st,
    __setitem__slice (mkSlice None None None)
      (BData <$> (example_dataset <$> [11; 12; 13; 14; 15]%N)) three_blocks
    = (st, Raise IndexError) /\
    n_blocks st = 3%nat.
Proof.
  apply (setitem_full_slice_mismatch_raises three_blocks).
  - reflexivity.
  - repeat constructor.
  - left. reflexivity.
Defined.

(** ** Bounds *)

Lemma Qmin_cases (a b : Q) : Qmin a b = a \/ Qmin a b = b.
Proof. unfold Qmin, GenericMinMax.gmin. destruct (a ?= b)%Q; auto. Qed.

Lemma Qmax_cases (a b : Q) : Qmax a b = a \/ Qmax a b = b.
Proof. unfold Qmax, GenericMinMax.gmax. destruct (a ?= b)%Q; auto. Qed.

Lemma foldl_Qmin_minimum (l : list Q) (a : Q) :
  is_minimum_of (foldl Qmin a l) (a :: l).
Proof.
  revert a. induction l as [| x l IH]; intros a; simpl.
  - split; [by left |]. intros y Hy. apply list_elem_of_singleton in Hy as ->.
    apply Qle_refl.
  - destruct (IH (Qmin a x)) as [Hin Hle]. split.
    + apply elem_of_cons in Hin as [-> | Hin].
      * destruct (Qmin_cases a x) as [-> | ->]; [by left | right; by left].
      * right. by right.
    + intros y Hy.
      assert (H0 : (foldl Qmin (Qmin a x) l <= Qmin a x)%Q) by (apply Hle; by left).
      apply elem_of_cons in Hy as [-> | Hy].
      * eapply Qle_trans; [exact H0 | apply Q.le_min_l].
      * apply elem_of_cons in Hy as [-> | Hy].
        -- eapply Qle_trans; [exact H0 | apply Q.le_min_r].
        -- apply Hle. by right.
Qed.

Lemma foldl_Qmax_maximum (l : list Q) (a : Q) :
  is_maximum_of (foldl Qmax a l) (a :: l).
Proof.
  revert a. induction l as [| x l IH]; intros a; simpl.
  - split; [by left |]. intros y Hy. apply list_elem_of_singleton in Hy as ->.
    apply Qle_refl.
  - destruct (IH (Qmax a x)) as [Hin Hle]. split.
    + apply elem_of_cons in Hin as [-> | Hin].
      * destruct (Qmax_cases a x) as [-> | ->]; [by left | right; by left].
      * right. by right.
    + intros y Hy.
      assert (H0 : (Qmax a x <= foldl Qmax (Qmax a x) l)%Q) by (apply Hle; by left).
      apply elem_of_cons in Hy as [-> | Hy].
      * eapply Qle_trans; [apply Q.le_max_l | exact H0].
      * apply elem_of_cons in Hy as [-> | Hy].
        -- eapply Qle_trans; [apply Q.le_max_r | exact H0].
        -- apply Hle. by right.
Qed.

(** A coordinate of a reduced row is the reduction of that coordinate. *)
Lemma ufunc_reduce_coordinate (f : BoundsTuple -> BoundsTuple -> BoundsTuple)
    (g : Q -> Q -> Q) (proj : BoundsTuple -> Q) (row : BoundsTuple)
    (rows : list BoundsTuple) :
  (forall a b, proj (f a b) = g (proj a) (proj b)) ->
  proj (ufunc_reduce f row rows) = foldl g (proj row) (proj <$> rows).
Proof.
  intros Hf. unfold ufunc_reduce. revert row.
  induction rows as [| r rows IH]; intros row; simpl; [done |].
  by rewrite IH, Hf.
Qed.

Lemma all_bounds_of_contributing (l : list slot) :
  all_bounds_of bounds l = omap (fun sl : slot => contributes sl.2) l.
Proof.
  induction l as [| [nm [| d | m]] l IH]; simpl; [done | done | |].
  - destruct (ds_truth d); simpl; by rewrite IH.
  - destruct (bool_decide (0 < n_blocks m)%nat); simpl; by rewrite IH.
Qed.

Lemma bounds_unfold (self : MultiBlock) :
  bounds self = bounds_of (contributing_bounds self).
Proof.
  destruct self as [a s r]. simpl. by rewrite all_bounds_of_contributing.
Qed.



(** ** Active scalars *)

Lemma collect_assoc_lacking
    (nested : MultiBlock -> outcome (FieldAssociation * ndarray))
    (name : string) (preference : preference) (allow_missing : bool)
    (l : list slot) (scalars : ndarray) :
  Forall (fun sl : slot =>
            match sl.2 with
            | BMulti m => lacks_field name preference m -> nested m = Raise KeyError
            | _ => True
            end) l ->
  blocks_lack (lacks_field name preference) name preference l ->
  collect_assoc nested (Some name) preference allow_missing l scalars = Raise KeyError \/
  exists scalars',
    collect_assoc nested (Some name) preference allow_missing l scalars
    = Return ([], scalars').
Proof.
  revert scalars. induction l as [| [nm b] l IH]; intros scalars Hnested Hlack.
  - right. by eexists.
  - apply Forall_cons in Hnested as [Hb Hnested]. destruct Hlack as [Hlb Hlack].
    simpl. destruct b as [| d | m]; simpl in *.
    + by apply IH.
    + destruct Hlb as [Hact [r Hdeact]]. rewrite Hact.
      destruct allow_missing; [| by left].
      rewrite Hdeact.
      destruct (IH empty_array Hnested Hlack) as [-> | [sc' ->]]; [by left |].
      right. exists sc'. by rewrite decide_False by (intros H; by apply H).
    + rewrite (Hb Hlb). by left.
Qed.

(** C3 (as amended): when no block, transitively, carries a field of the
    requested name, resolving the active scalars fails with [KeyError], with
    [allow_missing=False] and with [allow_missing=True] alike:
    [allow_missing] tolerates the field missing from some blocks, not from
    all. *)
Theorem set_active_scalars_missing_everywhere (self : MultiBlock) (name : string)
    (preference : preference) (allow_missing : bool) :
  lacks_field name preference self ->
  set_active_scalars self (Some name) preference allow_missing = Raise KeyError.
Proof.
  induction self as [a s r IH] using MultiBlock_nested_ind.
  intros Hlack. simpl in *.
  destruct (collect_assoc_lacking
              (fun m => set_active_scalars m (Some name) preference allow_missing)
              name preference allow_missing s empty_array IH Hlack)
    as [-> | [sc' ->]]; reflexivity.
Qed.

Lemma set_active_scalars_missing_everywhere_witness :
  set_active_scalars three_blocks (Some "Q"%string) pref_cell true = Raise KeyError.
Proof.
  apply (set_active_scalars_missing_everywhere three_blocks "Q" pref_cell true).
  vm_compute. repeat split; by eexists.
Defined.

(** C3 (as stated) fails: no block of the container carries ["Q"], and with
    [allow_missing=True] the resolution raises [KeyError]; it does not return
    the none association. *)
Lemma set_active_scalars_allow_missing_raises :
  lacks_field "Q" pref_cell three_blocks /\
  set_active_scalars three_blocks (Some "Q"%string) pref_cell true = Raise KeyError /\
  forall scalars,
    set_active_scalars three_blocks (Some "Q"%string) pref_cell true
    <> Return (NONE, scalars).
Proof.
  split; [| split].
  - vm_compute. repeat split; by eexists.
  - reflexivity.
  - intros scalars. vm_compute. discriminate.
Qed.

Lemma collect_assoc_fields (name : string) (preference : preference)
    (allow_missing : bool) (l : list slot) (scalars scalars' : ndarray)
    (data_assoc : list assoc) :
  collect_assoc
    (fun m => set_active_scalars m (Some name) preference allow_missing)
    (Some name) preference allow_missing l scalars
  = Return (data_assoc, scalars') ->
  (fun e : assoc => e.1.1) <$> data_assoc =
  omap (offers name preference allow_missing) (snd <$> l).
Proof.
  revert scalars scalars' data_assoc.
  induction l as [| [nm b] l IH]; intros scalars scalars' data_assoc H; simpl in H.
  - by inversion H.
  - destruct b as [| d | m]; simpl in *.
    + by eapply IH.
    + destruct (ds_set_active_scalars d (Some name) preference)
        as [[field [arr |]] | e] eqn:E.
      * destruct (collect_assoc _ _ _ _ l arr) as [[rest last] | e] eqn:Er;
          [| discriminate].
        inversion H; subst. apply IH in Er.
        repeat case_decide; try done; simpl; first [exact Er | f_equal; exact Er].
      * destruct (collect_assoc _ _ _ _ l empty_array) as [[rest last] | e] eqn:Er;
          [| discriminate].
        inversion H; subst. apply IH in Er.
        repeat case_decide; try done; simpl; first [exact Er | f_equal; exact Er].
      * destruct e; try discriminate.
        destruct allow_missing; [| discriminate].
        destruct (ds_set_active_scalars d None preference); [| discriminate].
        destruct (collect_assoc _ _ _ _ l empty_array) as [[rest last] | e] eqn:Er;
          [| discriminate].
        inversion H; subst. apply IH in Er.
        repeat case_decide; try done; simpl; first [exact Er | f_equal; exact Er].
    + destruct (set_active_scalars m (Some name) preference allow_missing)
        as [[field arr] | e] eqn:E; [| discriminate].
      destruct (collect_assoc _ _ _ _ l arr) as [[rest last] | e] eqn:Er;
        [| discriminate].
      inversion H; subst. apply IH in Er.
      repeat case_decide; try done; simpl; first [exact Er | f_equal; exact Er].
Qed.

Lemma choose_field_spec (first p : FieldAssociation) (data_assoc : list assoc) :
  (p ∈ (fun e : assoc => e.1.1) <$> data_assoc ->
   first = p \/ choose_field first p data_assoc = p) /\
  (p ∉ (fun e : assoc => e.1.1) <$> data_assoc ->
   choose_field first p data_assoc = first).
Proof.
  unfold choose_field. destruct (decide (first <> p)) as [Hne | Heq].
  - induction data_assoc as [| [[field arr] b] rest IH]; simpl.
    + split; [by intros ?%elem_of_nil | done].
    + destruct (decide (field = p)) as [-> | Hf].
      * split; [by right |]. intros H. exfalso. apply H. by left.
      * destruct IH as [IH1 IH2]. split.
        -- intros [? | H]%elem_of_cons; [congruence | by apply IH1].
        -- intros H. apply IH2. intros H'. apply H. by right.
  - split; [| done]. intros _. left. by destruct (decide (first = p)).
Qed.

(** C4: when the resolution of the active scalars succeeds, the field
    association returned is the preference as soon as one contributing block
    offers the field under the preferred association; otherwise it is the
    association offered by the first contributing block.  With a point-only
    block and a cell-only block and the preference cell it is cell; with a
    third, point, block and the preference point it is point. *)
Theorem set_active_scalars_association (self : MultiBlock) (name : string)
    (preference : preference) (allow_missing : bool)
    (field_asc : FieldAssociation) (scalars : ndarray) :
  set_active_scalars self (Some name) preference allow_missing
    = Return (field_asc, scalars) ->
  let offered := contributing_fields name preference allow_missing self in
  (parse_field_choice preference ∈ offered ->
   field_asc = parse_field_choice preference) /\
  (parse_field_choice preference ∉ offered -> head offered = Some field_asc) /\
  set_active_scalars point_cell (Some "T"%string) pref_cell false
    = Return (CELL, empty_array) /\
  set_active_scalars point_cell_point (Some "T"%string) pref_point false
    = Return (POINT, empty_array).
Proof.
  intros H offered.
  split; [| split; [| split; vm_compute; reflexivity]].
  all: destruct self as [a s r]; simpl in H;
    destruct (collect_assoc _ _ _ _ s empty_array) as [[data_assoc sc] | e] eqn:Ec;
      [| discriminate];
    apply collect_assoc_fields in Ec;
    unfold offered, contributing_fields, iter_blocks; simpl; rewrite <- Ec;
    destruct data_assoc as [| [[first arr] b] rest]; [discriminate |];
    unfold resolve_assoc in H;
    destruct (verify_loops _ _ _ _) as [[dims dtypes] sc2];
    destruct (decide (1 < size dims)%nat); [discriminate |];
    destruct (existsb _ _ && negb _); [discriminate |];
    inversion H; subst; clear H;
    destruct (choose_field_spec first (parse_field_choice preference)
                ((first, arr, b) :: rest)) as [H1 H2].
  - intros Hin. destruct (H1 Hin) as [Heq | Heq]; [| done].
    unfold choose_field. by rewrite decide_False by (intros Hne; by apply Hne).
  - intros Hnin. simpl. f_equal. symmetry. by apply H2.
Qed.

Lemma set_active_scalars_association_witness :
  (parse_field_choice pref_cell ∈ contributing_fields "T" pref_cell false point_cell ->
   CELL = parse_field_choice pref_cell) /\
  (parse_field_choice pref_cell ∉ contributing_fields "T" pref_cell false point_cell ->
   head (contributing_fields "T" pref_cell false point_cell) = Some CELL).
Proof.
  destruct (set_active_scalars_association point_cell "T" pref_cell false
              CELL empty_array) as (H1 & H2 & _).
  - vm_compute. reflexivity.
  - split; assumption.
Defined.

(** ** Cleaning *)

Lemma slots_clean_Forall (nested_clean : MultiBlock -> Prop) (l : list slot) :
  slots_clean nested_clean l <-> Forall (slot_clean nested_clean) l.
Proof.
  induction l as [| sl l IH]; simpl.
  - split; [by constructor | done].
  - by rewrite Forall_cons, <- IH.
Qed.

Lemma delitem_nat (self : MultiBlock) (k : nat) :
  (k < n_blocks self)%nat ->
  __delitem__ (KInt (Z.of_nat k)) self =
  (MB (address self) (delete k (slots self))
      (drop_ref (GetBlock k self) (refs self)), Return tt).
Proof.
  intros H. unfold __delitem__.
  erewrite bind_Return; [| reflexivity].
  erewrite bind_Return; [| by apply _remove_ref_nat].
  unfold RemoveBlock. destruct (Z.of_nat k <? 0) eqn:E; [lia |].
  unfold modify, with_slots. simpl. by rewrite Nat2Z.id.
Qed.

Lemma clean_remove_remove_all (null_blocks visited : list Z) (k : Z)
    (self : MultiBlock) :
  clean_remove (seq (length visited) (length null_blocks))
    (visited ++ ((fun v => v - k) <$> null_blocks)) self
  = remove_all k null_blocks self.
Proof.
  revert visited k self.
  induction null_blocks as [| idx rest IH]; intros visited k self; [done |].
  simpl. rewrite lookup_app_r by done. rewrite Nat.sub_diag. simpl.
  unfold bind at 1. simpl. unfold bind.
  destruct (__delitem__ (KInt (idx - k)) self) as [st [[] | e]]; [| done].
  rewrite fmap_app. simpl.
  rewrite (cons_middle (idx - k - 1)), (assoc_L (++)).
  rewrite <- list_fmap_compose.
  specialize (IH (((fun v => v - 1) <$> visited) ++ [idx - k - 1]) (k + 1) st).
  rewrite length_app, length_fmap in IH. simpl in IH.
  rewrite Nat.add_1_r in IH. rewrite <- IH. f_equal. f_equal.
  apply list_fmap_ext. intros _ v _. simpl. lia.
Qed.

Lemma remove_all_positions (marked : list (bool * slot)) (pre : list slot)
    (k : Z) (a : addr) (r : gset addr) :
  exists r',
    remove_all k (positions (Z.of_nat (length pre) + k) marked)
      (MB a (pre ++ (snd <$> marked)) r)
    = (MB a (pre ++ kept marked) r', Return tt).
Proof.
  revert pre k r. induction marked as [| [[] sl] rest IH]; intros pre k r; simpl.
  - by eexists.
  - replace (Z.of_nat (length pre) + k - k) with (Z.of_nat (length pre)) by lia.
    erewrite bind_Return.
    2:{ apply delitem_nat. unfold n_blocks, GetNumberOfBlocks. simpl.
        rewrite length_app. simpl. lia. }
    simpl. rewrite delete_middle.
    replace (Z.of_nat (length pre) + k + 1)
      with (Z.of_nat (length pre) + (k + 1)) by lia.
    apply IH.
  - specialize (IH (pre ++ [sl]) k r).
    rewrite length_app, Nat2Z.inj_add in IH. simpl in IH.
    rewrite <- !(assoc_L (++)) in IH.
    replace (Z.of_nat (length pre) + k + 1)
      with (Z.of_nat (length pre) + 1 + k) by lia.
    apply IH.
Qed.

Lemma clean_unfold (empty : bool) (a : addr) (s : list slot) (r : gset addr) :
  clean empty (MB a s r) =
  let '(s', null_blocks) := clean_scan (clean true) empty 0 s in
  match null_blocks with
  | Return null_blocks =>
      clean_remove (seq 0 (length null_blocks)) null_blocks (MB a s' r)
  | Raise e => (MB a s' r, Raise e)
  end.
Proof. reflexivity. Qed.

(** The first loop leaves a clean container as it is and marks nothing. *)
Lemma clean_scan_clean (l : list slot) (i : Z) :
  Forall (fun sl : slot =>
            match sl.2 with
            | BMulti m => is_clean m -> clean true m = (m, Return tt)
            | _ => True
            end) l ->
  slots_clean is_clean l ->
  clean_scan (clean true) true i l = (l, Return []).
Proof.
  revert i. induction l as [| [nm b] l IH]; intros i Hnested Hclean; [done |].
  apply Forall_cons in Hnested as [Hb Hnested]. destruct Hclean as [Hcb Hclean].
  unfold slot_clean in Hcb. simpl in *. destruct b as [| d | m].
  - done.
  - destruct (ds_n_points d <? 1) eqn:E; [lia |]. by rewrite IH.
  - destruct Hcb as [Hm Hlen]. rewrite (Hb Hm).
    rewrite bool_decide_eq_false_2 by lia. by rewrite IH.
Qed.

(** The first loop cleans the nested containers and marks the slots that
    are not clean. *)
Lemma clean_scan_marks (l : list slot) (i : Z) :
  Forall (fun sl : slot =>
            match sl.2 with
            | BMulti m =>
                exists m', clean true m = (m', Return tt) /\ is_clean m'
            | _ => True
            end) l ->
  exists marked : list (bool * slot),
    clean_scan (clean true) true i l = (snd <$> marked, Return (positions i marked)) /\
    Forall (fun p => p.1 = false -> slot_clean is_clean p.2) marked.
Proof.
  revert i. induction l as [| [nm b] l IH]; intros i Hnested.
  - exists []. split; [done | constructor].
  - apply Forall_cons in Hnested as [Hb Hnested].
    destruct (IH (i + 1) Hnested) as (marked & Escan & Hmarked).
    simpl in *. destruct b as [| d | m].
    + exists ((true, (nm, BNone)) :: marked). rewrite Escan.
      split; [done |]. constructor; [done | done].
    + exists ((ds_n_points d <? 1, (nm, BData d)) :: marked). rewrite Escan.
      split; [simpl; by destruct (ds_n_points d <? 1) |].
      constructor; [| done]. simpl. intros E. unfold slot_clean. simpl. lia.
    + destruct Hb as (m' & Em & Hm'). rewrite Em, Escan.
      exists ((bool_decide (n_blocks m' < 1)%nat, (nm, BMulti m')) :: marked).
      split; [simpl; by destruct (bool_decide (n_blocks m' < 1)%nat) |].
      constructor; [| done]. simpl. intros E%bool_decide_eq_false.
      unfold slot_clean. simpl. split; [done | lia].
Qed.

Lemma kept_clean (marked : list (bool * slot)) :
  Forall (fun p => p.1 = false -> slot_clean is_clean p.2) marked ->
  Forall (slot_clean is_clean) (kept marked).
Proof.
  induction 1 as [| [[] sl] rest H _ IH]; simpl; [constructor | done |].
  constructor; [by apply H | done].
Qed.

Lemma clean_makes_clean (self : MultiBlock) :
  exists self', clean true self = (self', Return tt) /\ is_clean self'.
Proof.
  induction self as [a s r IH] using MultiBlock_nested_ind.
  destruct (clean_scan_marks s 0 IH) as (marked & Escan & Hmarked).
  rewrite clean_unfold, Escan.
  pose proof (clean_remove_remove_all (positions 0 marked) [] 0
                (MB a (snd <$> marked) r)) as Hloop.
  assert (Hid : (fun v => v - 0) <$> positions 0 marked = positions 0 marked).
  { rewrite <- (list_fmap_id (positions 0 marked)) at 2.
    apply list_fmap_ext. intros _ v _. simpl. lia. }
  rewrite Hid in Hloop. simpl in Hloop. rewrite Hloop.
  destruct (remove_all_positions marked [] 0 a r) as [r' Hrem].
  change (Z.of_nat (length []) + 0) with 0 in Hrem.
  change ([] ++ (snd <$> marked)) with (snd <$> marked) in Hrem.
  rewrite Hrem.
  eexists. split; [reflexivity |]. simpl.
  apply slots_clean_Forall. by apply kept_clean.
Qed.

Lemma clean_of_clean (self : MultiBlock) :
  is_clean self -> clean true self = (self, Return tt).
Proof.
  induction self as [a s r IH] using MultiBlock_nested_ind.
  intros Hclean. simpl in Hclean.
  rewrite clean_unfold, (clean_scan_clean s 0 IH Hclean). reflexivity.
Qed.

(** C8: cleaning with [empty=True] is idempotent.  The cleanup always
    returns, and a second run on the container it has left returns again and
    leaves that container exactly as it was: slots, names and [_refs]. *)
Theorem clean_idempotent (self : MultiBlock) :
  exists self',
    clean true self = (self', Return tt) /\
    clean true self' = (self', Return tt).
Proof.
  destruct (clean_makes_clean self) as (self' & E & Hclean).
  exists self'. split; [exact E |]. by apply clean_of_clean.
Qed.

(** * Further properties *)

(** ** Reading by position and by name *)

Lemma names_of_slots (l : list (option string * block)) :
  (fun i => match l !! i with Some (nm, _) => nm | None => None end)
    <$> seq 0 (length l)
  = fst <$> l.
Proof.
  apply list_eq. intros i. rewrite !list_lookup_fmap.
  destruct (l !! i) as [[nm b] |] eqn:E.
  - rewrite lookup_seq_lt by (by eapply lookup_lt_Some). simpl. by rewrite E.
  - rewrite lookup_seq_ge; [done |]. by apply lookup_ge_None.
Qed.

Lemma keys_fst (self : MultiBlock) : keys self = fst <$> slots self.
Proof. destruct self as [a s r]. apply names_of_slots. Qed.

Lemma iter_blocks_lookup (self : MultiBlock) (i : nat) (b : block) :
  iter_blocks self !! i = Some b -> GetBlock i self = b.
Proof.
  destruct self as [a s r]. unfold iter_blocks, GetBlock, slot. simpl.
  rewrite list_lookup_fmap.
  destruct (s !! i) as [[nm b'] |]; cbn; intros H; [| discriminate].
  by inversion H.
Qed.

Lemma getitem_resolved (self : MultiBlock) (i : Z) (k : nat) :
  range_getitem (n_blocks self) i = Return k ->
  __getitem__ (KInt i) self = (self, Return (GetBlock k self)).
Proof.
  intros [Hi ->]%range_getitem_Return.
  unfold __getitem__. erewrite bind_Return; [| reflexivity].
  destruct (i <? - Z.of_nat (n_blocks self)) eqn:E1; [lia |].
  destruct (i >=? Z.of_nat (n_blocks self)) eqn:E2; [lia |]. reflexivity.
Qed.

Lemma first_occurrence {A} `{EqDecision A} (x : A) (l : list A) :
  x ∈ l ->
  exists i, l !! i = Some x /\ forall j, (j < i)%nat -> l !! j <> Some x.
Proof.
  induction l as [| y l IH]; intros Hin; [by apply elem_of_nil in Hin |].
  destruct (decide (y = x)) as [-> | Hne].
  - exists 0%nat. split; [done |]. intros j Hj. lia.
  - apply elem_of_cons in Hin as [-> | Hin]; [done |].
    destruct (IH Hin) as (i & Hi & Hfirst). exists (S i). split; [done |].
    intros [| j] Hj; simpl; [congruence |]. apply Hfirst. lia.
Qed.

Lemma getitem_name_first_match_aux (self : MultiBlock) (s : string) :
  (Some s ∉ keys self ->
   __getitem__ (KStr s) self = (self, Raise KeyError)) /\
  (Some s ∈ keys self ->
   exists i,
     keys self !! i = Some (Some s) /\
     (forall j, (j < i)%nat -> keys self !! j <> Some (Some s)) /\
     __getitem__ (KStr s) self = (self, Return (GetBlock i self))).
Proof.
  split.
  - intros H. unfold __getitem__.
    erewrite bind_Raise; [reflexivity |].
    erewrite bind_Raise; [reflexivity |]. by apply get_index_by_name_KeyError.
  - intros H. destruct (first_occurrence _ _ H) as (i & Hi & Hfirst).
    exists i. split; [done |]. split; [done |].
    assert (Hlt : (i < n_blocks self)%nat).
    { rewrite <- keys_length. by eapply lookup_lt_Some. }
    unfold __getitem__.
    erewrite bind_Return.
    2:{ erewrite bind_Return; [reflexivity |]. by apply get_index_by_name_first. }
    destruct (Z.of_nat i <? - Z.of_nat (n_blocks self)) eqn:E1; [lia |].
    destruct (Z.of_nat i >=? Z.of_nat (n_blocks self)) eqn:E2; [lia |]. simpl.
    destruct (Z.of_nat i <? 0) eqn:E3; [lia |]. by rewrite Nat2Z.id.
Qed.

(** X1: [c[name]] never changes the container.  When no block carries the
    name it raises [KeyError] (never [IndexError]); otherwise it returns the
    block of the first slot that carries the name, also when several do. *)
Theorem getitem_name_first_match (self : MultiBlock) (s : string) :
  (Some s ∉ keys self ->
   __getitem__ (KStr s) self = (self, Raise KeyError)) /\
  (Some s ∈ keys self ->
   exists i,
     keys self !! i = Some (Some s) /\
     (forall j, (j < i)%nat -> keys self !! j <> Some (Some s)) /\
     __getitem__ (KStr s) self = (self, Return (GetBlock i self))).
Proof. apply getitem_name_first_match_aux. Qed.

Lemma getitem_name_first_match_witness :
  __getitem__ (KStr "y") named_one = (named_one, Raise KeyError) /\
  exists i,
    keys named_one !! i = Some (Some "x"%string) /\
    (forall j, (j < i)%nat -> keys named_one !! j <> Some (Some "x"%string)) /\
    __getitem__ (KStr "x") named_one = (named_one, Return (GetBlock i named_one)).
Proof.
  split.
  - apply (proj1 (getitem_name_first_match named_one "y")).
    vm_compute. intros H. inversion H as [| ? ? ? H']; subst. inversion H'.
  - apply (proj2 (getitem_name_first_match named_one "x")).
    vm_compute. by left.
Defined.

(** X2: [get(name, default)] never raises and never changes the container;
    it returns [default] exactly when no block carries the name, and else the
    block of the first slot with that name. *)
Theorem get_total (self : MultiBlock) (s : string) (default : block) :
  exists b,
    get s default self = (self, Return b) /\
    (Some s ∉ keys self -> b = default) /\
    (Some s ∈ keys self ->
     exists i,
       keys self !! i = Some (Some s) /\
       (forall j, (j < i)%nat -> keys self !! j <> Some (Some s)) /\
       b = GetBlock i self).
Proof.
  destruct (decide (Some s ∈ keys self)) as [Hin | Hnin].
  - destruct (proj2 (getitem_name_first_match_aux self s) Hin)
      as (i & Hi & Hfirst & E).
    exists (GetBlock i self). unfold get. rewrite E.
    split; [done |]. split; [done |]. intros _. by exists i.
  - exists default. unfold get.
    rewrite (proj1 (getitem_name_first_match_aux self s) Hnin).
    split; [done |]. split; [done |]. done.
Qed.

(** ** Names *)

Lemma set_block_name_resolved (self : MultiBlock) (i : Z) (k : nat) (name : string) :
  range_getitem (n_blocks self) i = Return k ->
  set_block_name i (Some name) self =
  (with_slots (alter (fun sl => (Some name, sl.2)) k (slots self)) self, Return tt).
Proof.
  intros H. unfold set_block_name.
  by erewrite bind_Return; [| unfold lift; by rewrite H].
Qed.

Lemma get_block_name_resolved (self : MultiBlock) (i : Z) (k : nat) :
  range_getitem (n_blocks self) i = Return k ->
  get_block_name i self = (self, Return (GetMetaDataName k self)).
Proof.
  intros H. unfold get_block_name.
  by erewrite bind_Return; [| unfold lift; by rewrite H].
Qed.

(** X3: [set_block_name(i, name)] with a string and a valid index (negative
    ones count from the end) sets the name that [get_block_name(i)] reads
    back, and touches nothing else: the blocks, the other names and [_refs]
    stay.  With an index out of range it raises [IndexError].  With the name
    [None] it does nothing at all, and does not even look at the index. *)
Theorem set_block_name_get_block_name (self : MultiBlock) (i : Z) (name : string) :
  (forall k, range_getitem (n_blocks self) i = Return k ->
     exists self',
       set_block_name i (Some name) self = (self', Return tt) /\
       get_block_name i self' = (self', Return (Some name)) /\
       iter_blocks self' = iter_blocks self /\
       refs self' = refs self /\
       (forall j, j <> k -> GetMetaDataName j self' = GetMetaDataName j self)) /\
  (i < - Z.of_nat (n_blocks self) \/ Z.of_nat (n_blocks self) <= i ->
   set_block_name i (Some name) self = (self, Raise IndexError)) /\
  set_block_name i None self = (self, Return tt).
Proof.
  split; [| split].
  - intros k Hk. pose proof (range_getitem_lt _ _ _ Hk) as Hlt.
    eexists. split; [by apply set_block_name_resolved |].
    destruct self as [a s r]. unfold with_slots. simpl in *.
    unfold n_blocks, GetNumberOfBlocks in *. simpl in *.
    split; [| split; [| split]].
    + rewrite (get_block_name_resolved _ i k).
      * f_equal. f_equal. unfold GetMetaDataName. simpl.
        rewrite list_lookup_alter_eq.
        destruct (s !! k) as [[nm b] |] eqn:E; [done |].
        apply lookup_ge_None in E. unfold slot in *. lia.
      * unfold n_blocks, GetNumberOfBlocks. simpl. by rewrite length_alter.
    + unfold iter_blocks. simpl. apply list_eq. intros j.
      rewrite !list_lookup_fmap.
      destruct (decide (k = j)) as [<- | Hne].
      * rewrite list_lookup_alter_eq. by destruct (s !! k) as [[nm b] |].
      * by rewrite list_lookup_alter_ne.
    + done.
    + intros j Hj. unfold GetMetaDataName. simpl.
      by rewrite list_lookup_alter_ne.
  - intros H. unfold set_block_name.
    erewrite bind_Raise; [reflexivity |].
    unfold lift. f_equal. apply range_getitem_Raise. by split.
  - reflexivity.
Qed.

Lemma set_block_name_get_block_name_witness :
  exists self',
    set_block_name (-1) (Some "cone"%string) three_blocks = (self', Return tt) /\
    get_block_name (-1) self' = (self', Return (Some "cone"%string)) /\
    iter_blocks self' = iter_blocks three_blocks /\
    refs self' = refs three_blocks /\
    (forall j, j <> 2%nat ->
       GetMetaDataName j self' = GetMetaDataName j three_blocks).
Proof.
  apply (proj1 (set_block_name_get_block_name three_blocks (-1) "cone") 2%nat).
  reflexivity.
Defined.

(** ** Appending and popping *)

(** X4: for a dataset that is not the container itself, [append] succeeds:
    the container has one block more, [c[-1]] is the dataset,
    [get_block_name(-1)] is the name given or, without one, ["Block-%02d"] of
    the former length, the slots before are as they were and [_refs] gains
    the address of the dataset.  For an array [append] raises [TypeError] and
    changes nothing. *)
Theorem append_then_read (self : MultiBlock) (dataset : block)
    (name : option string) :
  (is_self dataset self = false ->
   exists self',
     append (PyBlock dataset) name self = (self', Return tt) /\
     n_blocks self' = S (n_blocks self) /\
     __getitem__ (KInt (-1)) self' = (self', Return dataset) /\
     get_block_name (-1) self'
       = (self', Return (Some (default (default_name (n_blocks self)) name))) /\
     take (n_blocks self) (slots self') = slots self /\
     refs self' = add_ref dataset (refs self)) /\
  append PyArray name self = (self, Raise TypeError).
Proof.
  split; [| reflexivity]. intros Hself.
  eexists. split; [by apply append_block |].
  destruct self as [a s r]. unfold n_blocks, GetNumberOfBlocks. simpl.
  assert (Hlast : range_getitem (length (s ++ [(Some (default (default_name (length s)) name), dataset)])) (-1)
                  = Return (length s)).
  { apply range_getitem_Return. rewrite length_app. simpl. split; [lia |].
    destruct (-1 <? 0) eqn:E; lia. }
  split; [rewrite length_app; simpl; lia |].
  split; [| split; [| split]].
  - rewrite (getitem_resolved _ (-1) (length s)) by done.
    unfold GetBlock. simpl. by rewrite list_lookup_middle.
  - rewrite (get_block_name_resolved _ (-1) (length s)) by done.
    unfold GetMetaDataName. simpl. by rewrite list_lookup_middle.
  - by rewrite take_app_length.
  - done.
Qed.

Lemma append_then_read_witness :
  exists self',
    append (PyBlock BNone) (Some "gap"%string) named_one = (self', Return tt) /\
    n_blocks self' = S (n_blocks named_one) /\
    __getitem__ (KInt (-1)) self' = (self', Return BNone) /\
    get_block_name (-1) self'
      = (self', Return (Some (default (default_name (n_blocks named_one))
                                      (Some "gap"%string)))) /\
    take (n_blocks named_one) (slots self') = slots named_one /\
    refs self' = add_ref BNone (refs named_one).
Proof.
  apply (proj1 (append_then_read named_one BNone (Some "gap"%string))).
  reflexivity.
Defined.

(** X5: [pop(i)] for an integer resolves a negative index itself.  At a
    valid index it returns the block there and removes the slot, name and
    block together, the later slots moving down; [_refs] loses the address of
    the block.  Out of range, in particular on an empty container, it raises
    [IndexError]; [pop(name)] for a name that no block carries raises
    [KeyError]; in both cases nothing changes. *)
Theorem pop_removes_slot (self : MultiBlock) (i : Z) (s : string) :
  (forall k, range_getitem (n_blocks self) i = Return k ->
     pop (KInt i) self =
     (MB (address self) (delete k (slots self))
         (drop_ref (GetBlock k self) (refs self)),
      Return (GetBlock k self))) /\
  (i < - Z.of_nat (n_blocks self) \/ Z.of_nat (n_blocks self) <= i ->
   pop (KInt i) self = (self, Raise IndexError)) /\
  (Some s ∉ keys self -> pop (KStr s) self = (self, Raise KeyError)).
Proof.
  split; [| split].
  - intros k Hk. pose proof (range_getitem_lt _ _ _ Hk) as Hlt.
    unfold pop.
    erewrite bind_Return.
    2:{ erewrite bind_Return; [reflexivity | unfold lift; by rewrite Hk]. }
    erewrite bind_Return; [| by apply getitem_nat].
    erewrite bind_Return; [| by apply delitem_nat].
    reflexivity.
  - intros H. unfold pop.
    erewrite bind_Raise; [reflexivity |].
    erewrite bind_Raise; [reflexivity |].
    unfold lift. f_equal. apply range_getitem_Raise. by split.
  - intros H. unfold pop.
    erewrite bind_Return; [| reflexivity].
    erewrite bind_Raise; [reflexivity |].
    by apply getitem_name_first_match_aux.
Qed.

Lemma pop_removes_slot_witness :
  pop (KInt (-1)) three_blocks =
    (MB (address three_blocks) (delete 2%nat (slots three_blocks))
        (drop_ref (GetBlock 2 three_blocks) (refs three_blocks)),
     Return (GetBlock 2 three_blocks)) /\
  pop (KInt (-1)) empty_container = (empty_container, Raise IndexError) /\
  pop (KStr "y") three_blocks = (three_blocks, Raise KeyError).
Proof.
  split; [| split].
  - apply (proj1 (pop_removes_slot three_blocks (-1) "y") 2%nat). reflexivity.
  - apply (proj1 (proj2 (pop_removes_slot empty_container (-1) "y"))).
    left. vm_compute. reflexivity.
  - apply (proj2 (proj2 (pop_removes_slot three_blocks (-1) "y"))).
    vm_compute. intros H.
    repeat (inversion H as [| ? ? ? H']; subst; clear H; rename H' into H).
Defined.

(** X6: [c.append(x, name)] followed by [c.pop()] gives back [x] and leaves
    the slots, blocks and names, as they were before.  [_refs] is not always
    restored: the address of [x] is gone from it, also when [x] was retained
    before because another slot holds it. *)
Theorem append_pop_round_trip (self : MultiBlock) (dataset : block)
    (name : option string) :
  is_self dataset self = false ->
  (append (PyBlock dataset) name >> pop (KInt (-1))) self =
  (MB (address self) (slots self)
      (match memory_address dataset with
       | Some a => refs self ∖ {[a]}
       | None => refs self
       end),
   Return dataset).
Proof.
  intros Hself.
  erewrite bind_Return; [| by apply append_block].
  set (nm := default _ name). set (st := MB _ _ _).
  assert (Hn : n_blocks st = S (n_blocks self)).
  { unfold st, n_blocks, GetNumberOfBlocks. simpl. rewrite length_app. simpl. lia. }
  assert (Hlast : range_getitem (n_blocks st) (-1) = Return (n_blocks self)).
  { apply range_getitem_Return. rewrite Hn. split; [lia |].
    destruct (-1 <? 0) eqn:E; lia. }
  unfold pop.
  erewrite bind_Return.
  2:{ erewrite bind_Return; [reflexivity | unfold lift; by rewrite Hlast]. }
  erewrite bind_Return; [| apply getitem_nat; lia].
  erewrite bind_Return; [| apply delitem_nat; lia].
  unfold ret, GetBlock, st, n_blocks, GetNumberOfBlocks. simpl.
  rewrite list_lookup_middle by done. simpl.
  f_equal. f_equal.
  - rewrite delete_middle. by rewrite app_nil_r.
  - unfold drop_ref, add_ref. destruct (memory_address dataset); [| done].
    set_solver.
Qed.

Lemma append_pop_round_trip_witness :
  (append (PyBlock (BData (example_dataset 1%N))) None >> pop (KInt (-1))) named_one =
  (MB (address named_one) (slots named_one)
      (match memory_address (BData (example_dataset 1%N)) with
       | Some a => refs named_one ∖ {[a]}
       | None => refs named_one
       end),
   Return (BData (example_dataset 1%N))).
Proof.
  apply (append_pop_round_trip named_one (BData (example_dataset 1%N)) None).
  reflexivity.
Defined.

(** ** Insertion in full *)

Lemma insert_shift_step (a : addr) (r : gset addr) (L : list slot) (y x : slot)
    (post : list slot) :
  exists r',
    (let! b := __getitem__ (KInt (Z.of_nat (length L))) in
     __setitem__ (KInt (Z.of_nat (length L) + 1)) b >>
     let! nm := get_block_name (Z.of_nat (length L)) in
     set_block_name (Z.of_nat (length L) + 1) nm)
      (MB a (L ++ y :: x :: post) r)
    = (MB a (L ++ y :: (Some (default (default_name (S (length L))) y.1), y.2) :: post) r',
       Return tt).
Proof.
  set (st := MB a (L ++ y :: x :: post) r).
  assert (Hn : n_blocks st = (length L + 2 + length post)%nat).
  { unfold st, n_blocks, GetNumberOfBlocks. simpl. rewrite length_app. simpl. lia. }
  erewrite bind_Return; [| apply getitem_nat; lia].
  replace (Z.of_nat (length L) + 1) with (Z.of_nat (S (length L))) by lia.
  erewrite bind_Return; [| apply setitem_int_nat; lia].
  erewrite bind_Return;
    [| apply get_block_name_nat; rewrite n_blocks_assigned; lia].
  assert (Hb : GetBlock (length L) st = y.2).
  { unfold st, GetBlock, slot. simpl. rewrite list_lookup_middle by done.
    by destruct y. }
  assert (Hnm : GetMetaDataName (length L)
                  (assigned (S (length L)) (default_name (S (length L)))
                     (GetBlock (length L) st) st) = y.1).
  { unfold GetMetaDataName, assigned, st, slot. simpl.
    rewrite list_lookup_insert_ne by lia.
    rewrite list_lookup_middle by done. by destruct y. }
  rewrite Hnm, Hb.
  assert (Hins : forall nm : string,
    <[S (length L) := (Some nm, y.2)]> (L ++ y :: x :: post)
    = L ++ y :: (Some nm, y.2) :: post).
  { intros nm. rewrite (cons_middle y), (assoc_L (++)).
    replace (S (length L)) with (length (L ++ [y]))
      by (rewrite length_app; simpl; lia).
    rewrite insert_app_r_alt by done. rewrite Nat.sub_diag. simpl.
    by rewrite <- (assoc_L (++)). }
  destruct (y.1) as [nm |] eqn:Ey.
  - rewrite set_block_name_nat by (rewrite n_blocks_assigned; lia).
    eexists. unfold assigned, with_slots, st. simpl. f_equal. f_equal.
    rewrite Hins.
    rewrite (cons_middle y), (assoc_L (++)).
    replace (S (length L)) with (length (L ++ [y]))
      by (rewrite length_app; simpl; lia).
    rewrite alter_app_r_alt by done. rewrite Nat.sub_diag. simpl.
    by rewrite <- (assoc_L (++)).
  - rewrite set_block_name_None.
    eexists. unfold assigned, st. simpl. f_equal. f_equal. by rewrite Hins.
Qed.

Lemma head_default_snoc {A} (x y : A) (l : list A) :
  default x (head (l ++ [y])) = default y (head l).
Proof. by destruct l. Qed.

(** The loop of [insert]: the slots [mid] after [pre] move up by one. *)
Lemma insert_shift_loop (mid pre : list slot) (x : slot) (post : list slot)
    (a : addr) (r : gset addr) :
  exists r',
    for_each (reverse (seq (length pre) (length mid)))
      (fun i =>
         let! b := __getitem__ (KInt (Z.of_nat i)) in
         __setitem__ (KInt (Z.of_nat i + 1)) b >>
         let! nm := get_block_name (Z.of_nat i) in
         set_block_name (Z.of_nat i + 1) nm)
      (MB a (pre ++ mid ++ x :: post) r)
    = (MB a (pre ++ default x (head mid) :: imap (shifted (length pre)) mid ++ post) r',
       Return tt).
Proof.
  revert x post r. induction mid as [| y mid IH] using rev_ind; intros x post r.
  - simpl. by eexists.
  - rewrite length_app. change (length [y]) with 1%nat.
    rewrite Nat.add_1_r, seq_S, reverse_snoc.
    rewrite for_each_cons.
    destruct (insert_shift_step a r (pre ++ mid) y x post) as [r1 E1].
    rewrite length_app in E1.
    replace (pre ++ (mid ++ [y]) ++ x :: post)
      with ((pre ++ mid) ++ y :: x :: post)
      by (by rewrite <- !(assoc_L (++))).
    erewrite bind_Return; [| exact E1].
    destruct (IH y ((Some (default (default_name (S (length pre + length mid))) y.1), y.2)
                      :: post) r1) as [r2 E2].
    rewrite <- (assoc_L (++)).
    rewrite E2. exists r2. f_equal. f_equal. f_equal.
    rewrite head_default_snoc. f_equal.
    rewrite imap_app. rewrite <- (assoc_L (++)). f_equal.
    unfold shifted. simpl.
    replace (length pre + (length mid + 0) + 1)%nat
      with (S (length pre + length mid)) by lia.
    done.
Qed.

Lemma insert_result (self : MultiBlock) (index : Z) (k : nat) (dataset : block)
    (name : option string) :
  range_getitem (n_blocks self) index = Return k ->
  exists r2,
    insert index dataset name self =
    (MB (address self)
        (take k (slots self)
         ++ (Some (default (default_name k) name), dataset)
         :: imap (shifted k) (drop k (slots self)))
        (add_ref dataset (drop_ref (GetBlock k self) r2)),
     Return tt).
Proof.
  intros Hi. pose proof (range_getitem_lt _ _ _ Hi) as Hk.
  destruct self as [a s r]. unfold n_blocks, GetNumberOfBlocks in Hk. simpl in Hk.
  unfold insert.
  erewrite bind_Return; [| unfold lift; by rewrite Hi].
  erewrite bind_Return; [| reflexivity].
  set (st1 := with_slots _ _).
  assert (Hs1 : st1 = MB a (take k s ++ drop k s ++ empty_slot :: []) r).
  { unfold st1, with_slots, n_blocks, GetNumberOfBlocks. simpl. f_equal.
    rewrite (assoc_L (++)), take_drop.
    rewrite <- Nat.add_1_r.
    exact (resize_add_eq s (length s) 1 empty_slot eq_refl). }
  assert (Hn1 : (n_blocks st1 - 1 - k)%nat = length (drop k s)).
  { unfold st1, n_blocks, GetNumberOfBlocks. simpl.
    rewrite length_resize, length_drop. unfold slot in *. lia. }
  assert (Hpre : length (take k s) = k).
  { rewrite length_take. unfold slot in *. lia. }
  destruct (insert_shift_loop (drop k s) (take k s) empty_slot [] a r) as [r2 E2].
  unfold slot in *. rewrite Hpre in E2.
  erewrite bind_Return; [| cbv beta; rewrite Hn1, Hs1; exact E2].
  set (st2 := MB a _ r2).
  assert (Hn2 : (k < n_blocks st2)%nat).
  { unfold st2, n_blocks, GetNumberOfBlocks. simpl. rewrite length_app. simpl.
    unfold slot in *. lia. }
  erewrite bind_Return; [| by apply setitem_int_nat].
  assert (Hb : GetBlock k st2 = GetBlock k (MB a s r)).
  { unfold st2, GetBlock. simpl.
    rewrite <- Hpre at 1. rewrite list_lookup_middle by done.
    rewrite head_lookup, lookup_drop, Nat.add_0_r. unfold slot.
    destruct (s !! k) as [[nm b] |] eqn:E; [done |].
    apply lookup_ge_None in E. lia. }
  assert (Hfinal : forall nm : string,
    assigned k nm dataset st2 =
    MB a (take k s ++ (Some nm, dataset) :: imap (shifted k) (drop k s))
       (add_ref dataset (drop_ref (GetBlock k (MB a s r)) r2))).
  { intros nm. unfold assigned. rewrite Hb. f_equal. unfold st2. simpl.
    rewrite app_nil_r.
    rewrite <- Hpre at 1. rewrite insert_app_r_alt by done.
    by rewrite Nat.sub_diag. }
  exists r2. destruct name as [nm |].
  - rewrite set_block_name_nat by (by rewrite n_blocks_assigned).
    rewrite Hfinal. unfold with_slots. simpl. f_equal. f_equal.
    rewrite <- Hpre at 1. rewrite alter_app_r_alt by done.
    by rewrite Nat.sub_diag.
  - rewrite set_block_name_None. by rewrite Hfinal.
Qed.

(** X7: [insert] at a valid index leaves the slots before the resolved
    position as they were, puts the dataset there under the name given (or
    the generated default of that position) and moves every later slot up by
    one, the block together with its name; a moved block that had no name
    gets the generated default of its new position.  The position is resolved
    against the old length, so [insert(-1, x)] puts [x] before the last block. *)
Theorem insert_slots (self : MultiBlock) (index : Z) (k : nat) (dataset : block)
    (name : option string) :
  range_getitem (n_blocks self) index = Return k ->
  exists self',
    insert index dataset name self = (self', Return tt) /\
    slots self' =
      take k (slots self)
      ++ (Some (default (default_name k) name), dataset)
      :: imap (shifted k) (drop k (slots self)).
Proof.
  intros Hi. destruct (insert_result self index k dataset name Hi) as [r2 E].
  eexists. split; [exact E | reflexivity].
Qed.

Lemma insert_slots_witness :
  exists self',
    insert (-1) BNone (Some "gap"%string) three_blocks = (self', Return tt) /\
    slots self' =
      take 2 (slots three_blocks)
      ++ (Some (default (default_name 2) (Some "gap"%string)), BNone)
      :: imap (shifted 2) (drop 2 (slots three_blocks)).
Proof.
  apply (insert_slots three_blocks (-1) 2 BNone (Some "gap"%string)).
  reflexivity.
Defined.

(** X8: [insert] does not keep [_refs] in step with the slots.  When the
    slot at the resolved position holds an object, and the dataset inserted is
    another object, that object is still stored afterwards, one position
    further, but its address is no longer a key of [_refs]. *)
Theorem insert_forgets_moved_block (self : MultiBlock) (index : Z) (k : nat)
    (dataset : block) (name : option string) (a : addr) :
  range_getitem (n_blocks self) index = Return k ->
  memory_address (GetBlock k self) = Some a ->
  memory_address dataset <> Some a ->
  exists self',
    insert index dataset name self = (self', Return tt) /\
    GetBlock (S k) self' = GetBlock k self /\
    a ∉ refs self'.
Proof.
  intros Hi Ha Hd. pose proof (range_getitem_lt _ _ _ Hi) as Hk.
  destruct (insert_result self index k dataset name Hi) as [r2 E].
  eexists. split; [exact E |]. split.
  - destruct self as [a0 s r]. unfold GetBlock, n_blocks, GetNumberOfBlocks in *.
    simpl in *. unfold slot in *.
    assert (Hpre : length (take k s) = k) by (rewrite length_take; lia).
    rewrite lookup_app_r by lia. rewrite Hpre.
    replace (S k - k)%nat with 1%nat by lia. simpl.
    rewrite list_lookup_imap, lookup_drop, Nat.add_0_r.
    by destruct (s !! k) as [[nm b] |].
  - simpl. unfold add_ref, drop_ref. rewrite Ha.
    destruct (memory_address dataset) as [a' |]; set_solver.
Qed.

Lemma insert_forgets_moved_block_witness :
  exists self',
    insert 0 (BData (example_dataset 7%N)) None three_blocks = (self', Return tt) /\
    GetBlock 1 self' = GetBlock 0 three_blocks /\
    1%N ∉ refs self'.
Proof.
  apply (insert_forgets_moved_block three_blocks 0 0
           (BData (example_dataset 7%N)) None 1%N).
  - reflexivity.
  - reflexivity.
  - vm_compute. discriminate.
Defined.

Lemma imap_default_name_named (l : list slot) (g : nat -> string) :
  Forall (fun sl : slot => is_Some sl.1) l ->
  imap (fun j (sl : slot) => (Some (default (g j) sl.1), sl.2)) l = l.
Proof.
  intros H. revert g.
  induction H as [| [nm b] l [nm' Hnm] _ IH]; intros g; [done |].
  rewrite imap_cons. f_equal.
  - simpl in *. by rewrite Hnm.
  - apply IH.
Qed.

(** X9: on a container all of whose slots are named, [insert(index, x, name)]
    followed by [pop] at the position where [x] went gives back [x] and
    the slots, blocks and names, as they were before the two calls. *)
Theorem insert_pop_round_trip (self : MultiBlock) (index : Z) (k : nat)
    (dataset : block) (name : option string) :
  range_getitem (n_blocks self) index = Return k ->
  Forall (fun sl : slot => is_Some sl.1) (slots self) ->
  exists r',
    (insert index dataset name >> pop (KInt (Z.of_nat k))) self =
    (MB (address self) (slots self) r', Return dataset).
Proof.
  intros Hi Hnamed. pose proof (range_getitem_lt _ _ _ Hi) as Hk.
  destruct (insert_result self index k dataset name Hi) as [r2 E].
  erewrite bind_Return; [| exact E].
  set (st := MB _ _ _).
  destruct self as [a s r]. unfold n_blocks, GetNumberOfBlocks in Hk.
  simpl in *. unfold slot in *.
  assert (Hpre : length (take k s) = k) by (rewrite length_take; lia).
  assert (Hn : (k < n_blocks st)%nat).
  { unfold st, n_blocks, GetNumberOfBlocks. simpl. rewrite length_app. simpl. lia. }
  unfold pop.
  erewrite bind_Return.
  2:{ erewrite bind_Return; [reflexivity |].
      unfold lift. by rewrite range_getitem_nat. }
  erewrite bind_Return; [| by apply getitem_nat].
  erewrite bind_Return; [| by apply delitem_nat].
  eexists. unfold ret, st, GetBlock. simpl. f_equal; [| f_equal].
  - f_equal.
    rewrite <- Hpre at 1. rewrite delete_middle.
    rewrite <- (take_drop k s) at 3. f_equal.
    apply Forall_drop with (n := k) in Hnamed.
    by apply (imap_default_name_named _ (fun j => default_name (k + j + 1))).
  - rewrite <- Hpre at 1. by rewrite list_lookup_middle.
Qed.

Lemma insert_pop_round_trip_witness :
  exists r',
    (insert (-1) BNone None >> pop (KInt (Z.of_nat 2))) three_blocks =
    (MB (address three_blocks) (slots three_blocks) r', Return BNone).
Proof.
  apply (insert_pop_round_trip three_blocks (-1) 2 BNone None).
  - reflexivity.
  - vm_compute. repeat constructor; by eexists.
Defined.

(** ** Active scalars: deactivation, the array returned, consistency *)

Lemma collect_assoc_returns
    (nested : MultiBlock -> outcome (FieldAssociation * ndarray))
    (preference : preference) (allow_missing : bool)
    (l : list slot) (scalars : ndarray) :
  Forall (fun sl : slot =>
            match sl.2 with
            | BMulti m => exists r, nested m = Return r
            | BData d => exists r, ds_set_active_scalars d None preference = Return r
            | BNone => True
            end) l ->
  exists r, collect_assoc nested None preference allow_missing l scalars = Return r.
Proof.
  revert scalars. induction l as [| [nm b] l IH]; intros scalars H.
  - by eexists.
  - apply Forall_cons in H as [Hb H]. simpl in *.
    destruct b as [| d | m]; simpl.
    + by apply IH.
    + destruct Hb as [[field arr] ->].
      destruct arr as [arr |].
      * destruct (IH arr H) as [[rest last] ->]. by eexists.
      * destruct (IH empty_array H) as [[rest last] ->]. by eexists.
    + destruct Hb as [[field arr] ->].
      destruct (IH arr H) as [[rest last] ->]. by eexists.
Qed.

(** X10: with the name [None], [set_active_scalars] is a pure deactivation:
    when no leaf dataset raises on being deactivated, it returns the none
    association with an empty array, whatever the blocks hold and whatever
    [preference] and [allow_missing] are. *)
Theorem set_active_scalars_None (self : MultiBlock) (preference : preference)
    (allow_missing : bool) :
  all_leaves (fun d => exists r, ds_set_active_scalars d None preference = Return r)
    self ->
  set_active_scalars self None preference allow_missing = Return (NONE, empty_array).
Proof.
  induction self as [a s r IH] using MultiBlock_nested_ind.
  intros Hleaves. simpl in *.
  destruct (collect_assoc_returns
              (fun m => set_active_scalars m None preference allow_missing)
              preference allow_missing s empty_array) as [[da sc] ->]; [| done].
  clear -IH Hleaves. induction s as [| [nm b] s IHs]; [constructor |].
  apply Forall_cons in IH as [Hb IH]. destruct Hleaves as [Hlb Hleaves].
  constructor; [| by apply IHs].
  simpl in *. destruct b as [| d | m]; [done | done |].
  eexists. by apply Hb.
Qed.

Lemma set_active_scalars_None_witness :
  set_active_scalars point_cell None pref_cell false = Return (NONE, empty_array).
Proof.
  apply (set_active_scalars_None point_cell pref_cell false).
  vm_compute. repeat split; by eexists.
Defined.

Lemma collect_assoc_contributions (name : string) (preference : preference)
    (allow_missing : bool) (l : list slot) (scalars scalars' : ndarray)
    (data_assoc : list assoc) :
  collect_assoc
    (fun m => set_active_scalars m (Some name) preference allow_missing)
    (Some name) preference allow_missing l scalars
  = Return (data_assoc, scalars') ->
  fst <$> data_assoc =
  omap (contribution name preference allow_missing) (snd <$> l).
Proof.
  revert scalars scalars' data_assoc.
  induction l as [| [nm b] l IH]; intros scalars scalars' data_assoc H; simpl in H.
  - by inversion H.
  - destruct b as [| d | m]; simpl in *.
    + by eapply IH.
    + destruct (ds_set_active_scalars d (Some name) preference)
        as [[field [arr |]] | e] eqn:E.
      * destruct (collect_assoc _ _ _ _ l arr) as [[rest last] | e] eqn:Er;
          [| discriminate].
        inversion H; subst. apply IH in Er.
        repeat case_decide; try done; simpl; first [exact Er | f_equal; exact Er].
      * destruct (collect_assoc _ _ _ _ l empty_array) as [[rest last] | e] eqn:Er;
          [| discriminate].
        inversion H; subst. apply IH in Er.
        repeat case_decide; try done; simpl; first [exact Er | f_equal; exact Er].
      * destruct e; try discriminate.
        destruct allow_missing; [| discriminate].
        destruct (ds_set_active_scalars d None preference); [| discriminate].
        destruct (collect_assoc _ _ _ _ l empty_array) as [[rest last] | e] eqn:Er;
          [| discriminate].
        inversion H; subst. apply IH in Er.
        repeat case_decide; try done; simpl; first [exact Er | f_equal; exact Er].
    + destruct (set_active_scalars m (Some name) preference allow_missing)
        as [[field arr] | e] eqn:E; [| discriminate].
      destruct (collect_assoc _ _ _ _ l arr) as [[rest last] | e] eqn:Er;
        [| discriminate].
      inversion H; subst. apply IH in Er.
      repeat case_decide; try done; simpl; first [exact Er | f_equal; exact Er].
Qed.

Lemma default_last_cons {A} (x y : A) (l : list A) :
  default y (last (x :: l)) = default x (last l).
Proof.
  revert x y. induction l as [| z l IH]; intros x y; [done |].
  change (last (x :: z :: l)) with (last (z :: l)).
  rewrite (IH z y). symmetry. apply IH.
Qed.

Lemma verify_inner_loop (data_assoc : list assoc) (field_asc : FieldAssociation)
    (dims : gset nat) (dtypes : gset dtype) (scalars : ndarray) :
  exists dims' dtypes',
    foldl (fun '(dims, dtypes, _) '(field, scalars, _) =>
             if decide (field <> field_asc) then (dims, dtypes, scalars)
             else ({[ndim scalars]} ∪ dims, {[arr_dtype scalars]} ∪ dtypes, scalars))
          (dims, dtypes, scalars) data_assoc
    = (dims', dtypes',
       default scalars (last ((fun e : assoc => e.1.2) <$> data_assoc))) /\
    dims ⊆ dims' /\ dtypes ⊆ dtypes' /\
    forall e : assoc, e ∈ data_assoc -> e.1.1 = field_asc ->
      ndim e.1.2 ∈ dims' /\ arr_dtype e.1.2 ∈ dtypes'.
Proof.
  revert dims dtypes scalars.
  induction data_assoc as [| [[field arr] b] rest IH]; intros dims dtypes scalars.
  - exists dims, dtypes. split; [done |]. split; [done |]. split; [done |].
    intros e He. by apply elem_of_nil in He.
  - simpl foldl. destruct (decide (field <> field_asc)) as [Hne | Heq].
    + destruct (IH dims dtypes arr) as (dims' & dtypes' & E & Hd & Ht & Hin).
      exists dims', dtypes'. rewrite E. split.
      { f_equal. rewrite fmap_cons. simpl. by rewrite default_last_cons. }
      split; [done |]. split; [done |].
      intros e [-> | He]%elem_of_cons Hf; [done | by apply Hin].
    + destruct (IH ({[ndim arr]} ∪ dims) ({[arr_dtype arr]} ∪ dtypes) arr)
        as (dims' & dtypes' & E & Hd & Ht & Hin).
      exists dims', dtypes'. rewrite E. split.
      { f_equal. rewrite fmap_cons. simpl. by rewrite default_last_cons. }
      split; [set_solver |]. split; [set_solver |].
      intros e [-> | He]%elem_of_cons Hf; [| by apply Hin].
      simpl. split; set_solver.
Qed.

Lemma verify_loops_gathered (blocks : list block) (data_assoc : list assoc)
    (field_asc : FieldAssociation) (scalars : ndarray) :
  blocks <> [] -> data_assoc <> [] ->
  gathered data_assoc field_asc (verify_loops blocks data_assoc field_asc scalars).
Proof.
  intros Hb Hda. unfold verify_loops.
  destruct blocks as [| b0 blocks]; [done |]. clear Hb. simpl foldl.
  assert (Hlast : forall sc,
    Some (default sc (last ((fun e : assoc => e.1.2) <$> data_assoc)))
    = last ((fun e : assoc => e.1.2) <$> data_assoc)).
  { intros sc. destruct data_assoc as [| e da]; [done |].
    rewrite fmap_cons.
    by destruct (last_is_Some (e.1.2 :: ((fun e : assoc => e.1.2) <$> da)))
      as [_ [x ->]]. }
  destruct (verify_inner_loop data_assoc field_asc ∅ ∅ scalars)
    as (dims0 & dtypes0 & E0 & _ & _ & Hin0).
  rewrite E0.
  assert (H0 : gathered data_assoc field_asc
                 (dims0, dtypes0,
                  default scalars (last ((fun e : assoc => e.1.2) <$> data_assoc)))).
  { split; [symmetry; apply Hlast | done]. }
  revert H0. generalize (dims0, dtypes0,
    default scalars (last ((fun e : assoc => e.1.2) <$> data_assoc))).
  clear E0 Hin0. induction blocks as [| b blocks IH]; intros st Hst; [done |].
  simpl foldl. apply IH. destruct st as [[dims dtypes] sc].
  destruct (verify_inner_loop data_assoc field_asc dims dtypes sc)
    as (dims' & dtypes' & E & Hd & Ht & Hin).
  rewrite E. destruct Hst as [Hsc Hmem]. split; [symmetry; apply Hlast | done].
Qed.

(** What [set_active_scalars] has gone through when it returns for a name. *)
Lemma set_active_scalars_success (self : MultiBlock) (name : string)
    (preference : preference) (allow_missing : bool)
    (field_asc : FieldAssociation) (scalars : ndarray) :
  set_active_scalars self (Some name) preference allow_missing
    = Return (field_asc, scalars) ->
  exists (data_assoc : list assoc) dims dtypes,
    fst <$> data_assoc = contributions name preference allow_missing self /\
    gathered data_assoc field_asc (dims, dtypes, scalars) /\
    (size dims <= 1)%nat /\
    existsb id (is_complexfloating <$> elements dtypes)
      && negb (forallb id (is_complexfloating <$> elements dtypes)) = false.
Proof.
  intros H. destruct self as [a s r]. simpl in H.
  destruct (collect_assoc _ _ _ _ s empty_array) as [[data_assoc sc] | e] eqn:Ec;
    [| discriminate].
  apply collect_assoc_contributions in Ec.
  destruct data_assoc as [| [[first arr] b] rest] eqn:Eda; [discriminate |].
  rewrite <- Eda in *.
  assert (Hs : snd <$> s <> []).
  { intros Hnil. rewrite Hnil in Ec. rewrite Eda in Ec. discriminate. }
  assert (Hda : data_assoc <> []) by (rewrite Eda; discriminate).
  unfold resolve_assoc in H. rewrite Eda in H at 1. rewrite <- Eda in H.
  pose proof (verify_loops_gathered (snd <$> s) data_assoc
                (choose_field first (parse_field_choice preference) data_assoc)
                sc Hs Hda) as Hg.
  destruct (verify_loops _ _ _ _) as [[dims dtypes] sc2].
  destruct (decide (1 < size dims)%nat) as [| Hsize]; [discriminate |].
  destruct (existsb _ _ && negb _) eqn:Ecomplex; [discriminate |].
  inversion H; subst field_asc scalars.
  exists data_assoc, dims, dtypes. split; [exact Ec |]. split; [exact Hg |].
  split; [lia | exact Ecomplex].
Qed.

(** X11: when [set_active_scalars] returns for a name, the array it returns
    is the array of the last contributing block, in slot order, whatever the
    association of that block: it need not be an array of the association
    returned. *)
Theorem set_active_scalars_returns_last_array (self : MultiBlock) (name : string)
    (preference : preference) (allow_missing : bool)
    (field_asc : FieldAssociation) (scalars : ndarray) :
  set_active_scalars self (Some name) preference allow_missing
    = Return (field_asc, scalars) ->
  exists field,
    last (contributions name preference allow_missing self) = Some (field, scalars).
Proof.
  intros H.
  destruct (set_active_scalars_success _ _ _ _ _ _ H)
    as (da & dims & dtypes & Hc & [Hlast _] & _).
  rewrite <- Hc. rewrite fmap_last. rewrite fmap_last in Hlast. simpl in Hlast.
  unfold assoc in *.
  destruct (last da) as [[[f arr] b] |]; [| discriminate].
  simpl in *. inversion Hlast; subst. by exists f.
Qed.

Lemma set_active_scalars_returns_last_array_witness :
  set_active_scalars cell_then_point (Some "T"%string) pref_cell false
    = Return (CELL, matrix_array) /\
  exists field,
    last (contributions "T" pref_cell false cell_then_point)
    = Some (field, matrix_array).
Proof.
  split; [vm_compute; reflexivity |].
  apply (set_active_scalars_returns_last_array cell_then_point "T" pref_cell false
           CELL matrix_array).
  vm_compute. reflexivity.
Defined.

Lemma size_le_1_eq (X : gset nat) (x y : nat) :
  (size X <= 1)%nat -> x ∈ X -> y ∈ X -> x = y.
Proof.
  intros Hsize Hx Hy. destruct (size X) as [| [| n]] eqn:E; [| | lia].
  - apply size_empty_inv in E. set_solver.
  - by apply (size_singleton_inv X).
Qed.

Lemma all_or_none_complex (flags : list bool) (b1 b2 : bool) :
  existsb id flags && negb (forallb id flags) = false ->
  b1 ∈ flags -> b2 ∈ flags -> b1 = b2.
Proof.
  intros H H1 H2.
  destruct (forallb id flags) eqn:Hall.
  - rewrite forallb_forall in Hall.
    apply list_elem_of_In in H1, H2.
    apply Hall in H1, H2. unfold id in *. congruence.
  - rewrite andb_true_r in H.
    destruct b1, b2; try done.
    + assert (existsb id flags = true); [| congruence].
      apply existsb_exists. exists true. by rewrite <- list_elem_of_In.
    + assert (existsb id flags = true); [| congruence].
      apply existsb_exists. exists true. by rewrite <- list_elem_of_In.
Qed.

(** X12: when [set_active_scalars] returns for a name, the arrays of the
    contributing blocks that offer the field under the association returned
    all have the same number of dimensions, and they are all complex or none
    of them is.  (Blocks that offer it under the other association are not
    checked.) *)
Theorem set_active_scalars_consistent (self : MultiBlock) (name : string)
    (preference : preference) (allow_missing : bool)
    (field_asc : FieldAssociation) (scalars : ndarray) :
  set_active_scalars self (Some name) preference allow_missing
    = Return (field_asc, scalars) ->
  forall arr1 arr2,
    (field_asc, arr1) ∈ contributions name preference allow_missing self ->
    (field_asc, arr2) ∈ contributions name preference allow_missing self ->
    ndim arr1 = ndim arr2 /\
    is_complexfloating (arr_dtype arr1) = is_complexfloating (arr_dtype arr2).
Proof.
  intros H arr1 arr2 H1 H2.
  destruct (set_active_scalars_success _ _ _ _ _ _ H)
    as (da & dims & dtypes & Hc & [_ Hmem] & Hsize & Hcomplex).
  rewrite <- Hc in H1, H2.
  apply list_elem_of_fmap in H1 as ([[f1 a1] b1] & [= -> ->] & He1).
  apply list_elem_of_fmap in H2 as ([[f2 a2] b2] & [= Hf ->] & He2).
  destruct (Hmem _ He1 eq_refl) as [Hd1 Ht1].
  destruct (Hmem _ He2 (eq_sym Hf)) as [Hd2 Ht2].
  simpl in *. split.
  - by apply (size_le_1_eq dims).
  - apply (all_or_none_complex _ _ _ Hcomplex);
      apply list_elem_of_fmap; eexists; (split; [reflexivity |]);
      by apply elem_of_elements.
Qed.

Lemma set_active_scalars_consistent_witness :
  ndim empty_array = ndim float32_array /\
  is_complexfloating (arr_dtype empty_array)
  = is_complexfloating (arr_dtype float32_array).
Proof.
  assert (H : contributions "T" pref_cell false two_cells
              = [(CELL, empty_array); (CELL, float32_array)])
    by (vm_compute; reflexivity).
  apply (set_active_scalars_consistent two_cells "T" pref_cell false
           CELL float32_array).
  - vm_compute. reflexivity.
  - rewrite H. apply list_elem_of_here.
  - rewrite H. apply list_elem_of_further, list_elem_of_here.
Defined.

Lemma lacks_field_raises (self : MultiBlock) (name : string)
    (preference : preference) (allow_missing : bool) :
  lacks_field name preference self ->
  set_active_scalars self (Some name) preference allow_missing = Raise KeyError.
Proof.
  induction self as [a s r IH] using MultiBlock_nested_ind.
  intros Hlack. simpl in *.
  destruct (collect_assoc_lacking
              (fun m => set_active_scalars m (Some name) preference allow_missing)
              name preference allow_missing s empty_array IH Hlack)
    as [-> | [sc' ->]]; reflexivity.
Qed.

Lemma collect_assoc_raises_at
    (nested : MultiBlock -> outcome (FieldAssociation * ndarray))
    (name : option string) (preference : preference) (allow_missing : bool)
    (pre post : list slot) (nm : option string) (m : MultiBlock) (e : exn)
    (scalars : ndarray) :
  Forall (fun sl : slot =>
            exists r, visit_block nested name preference allow_missing sl.2
                      = Return r) pre ->
  nested m = Raise e ->
  collect_assoc nested name preference allow_missing
    (pre ++ (nm, BMulti m) :: post) scalars = Raise e.
Proof.
  intros Hpre Hm. revert scalars.
  induction Hpre as [| [nm' b] pre [r Hr] _ IH]; intros scalars; simpl.
  - by rewrite Hm.
  - simpl in Hr. rewrite Hr. destruct r as [[field arr] |].
    + by rewrite IH.
    + apply IH.
Qed.

(** X13: [allow_missing] does not cover a nested container.  When a nested
    container carries the field nowhere, as an empty nested container does,
    and the blocks before it are [None], leaves that answer the activation or
    nested containers that resolve, the resolution of the parent raises
    [KeyError], with [allow_missing=True] too and also when blocks before it
    carry the field. *)
Theorem set_active_scalars_nested_missing (self : MultiBlock) (name : string)
    (preference : preference) (allow_missing : bool)
    (pre post : list slot) (nm : option string) (m : MultiBlock) :
  slots self = pre ++ (nm, BMulti m) :: post ->
  Forall (fun sl : slot =>
            match sl.2 with
            | BNone => True
            | BData d =>
                exists r, ds_set_active_scalars d (Some name) preference = Return r
            | BMulti m' =>
                exists r, set_active_scalars m' (Some name) preference allow_missing
                          = Return r
            end) pre ->
  lacks_field name preference m ->
  set_active_scalars self (Some name) preference allow_missing = Raise KeyError.
Proof.
  intros Hslots Hpre Hlack. destruct self as [a s r]. simpl in Hslots. subst s.
  simpl.
  rewrite (collect_assoc_raises_at _ _ _ _ pre post nm m KeyError); [done | |].
  - eapply Forall_impl; [exact Hpre |]. intros [nm' b] Hb. simpl in *.
    destruct b as [| d | m']; simpl.
    + by eexists.
    + destruct Hb as [[field [arr |]] ->]; by eexists.
    + destruct Hb as [r' ->]. by eexists.
  - by apply lacks_field_raises.
Qed.

Lemma set_active_scalars_nested_missing_witness :
  set_active_scalars point_then_empty_nested (Some "T"%string) pref_point true
  = Raise KeyError.
Proof.
  apply (set_active_scalars_nested_missing point_then_empty_nested "T" pref_point
           true [(Some "Block-00"%string, BData (field_dataset 1%N POINT))] []
           (Some "Block-01"%string) (MB 50%N [] ∅)).
  - reflexivity.
  - constructor; [| constructor]. simpl. by eexists.
  - exact I.
Defined.

(** ** Cleaning: what is kept *)

Lemma clean_scan_survivors (empty : bool) (l : list slot) (i : Z) :
  exists marked : list (bool * slot),
    clean_scan (clean true) empty i l
    = (snd <$> marked, Return (positions i marked)) /\
    kept marked = omap (survivor empty) l.
Proof.
  revert i. induction l as [| [nm b] l IH]; intros i.
  - by exists [].
  - destruct (IH (i + 1)) as (marked & Escan & Hkept).
    simpl. destruct b as [| d | m].
    + exists ((true, (nm, BNone)) :: marked). rewrite Escan. by split.
    + exists ((empty && (ds_n_points d <? 1), (nm, BData d)) :: marked).
      rewrite Escan. unfold survivor. simpl.
      destruct (empty && (ds_n_points d <? 1)); simpl; split;
        first [done | exact Hkept | f_equal; exact Hkept].
    + destruct (clean_makes_clean m) as (m' & Em & _). rewrite Em, Escan.
      exists ((bool_decide (n_blocks m' < 1)%nat, (nm, BMulti m')) :: marked).
      unfold survivor. simpl. rewrite Em. simpl.
      destruct (bool_decide (n_blocks m' < 1)%nat); simpl; split;
        first [done | exact Hkept | f_equal; exact Hkept].
Qed.

Lemma remove_all_positions_refs (marked : list (bool * slot)) (pre : list slot)
    (k : Z) (a : addr) (r : gset addr) :
  exists r',
    remove_all k (positions (Z.of_nat (length pre) + k) marked)
      (MB a (pre ++ (snd <$> marked)) r)
    = (MB a (pre ++ kept marked) r', Return tt) /\ r' ⊆ r.
Proof.
  revert pre k r. induction marked as [| [[] sl] rest IH]; intros pre k r; simpl.
  - by eexists.
  - replace (Z.of_nat (length pre) + k - k) with (Z.of_nat (length pre)) by lia.
    erewrite bind_Return.
    2:{ apply delitem_nat. unfold n_blocks, GetNumberOfBlocks. simpl.
        rewrite length_app. simpl. lia. }
    simpl. rewrite delete_middle.
    replace (Z.of_nat (length pre) + k + 1)
      with (Z.of_nat (length pre) + (k + 1)) by lia.
    destruct (IH pre (k + 1)
                (drop_ref (GetBlock (length pre) (MB a (pre ++ sl :: (snd <$> rest)) r)) r))
      as (r' & E & Hsub).
    exists r'. split; [exact E |].
    etrans; [exact Hsub |]. unfold drop_ref.
    destruct (memory_address _); set_solver.
  - specialize (IH (pre ++ [sl]) k r).
    rewrite length_app, Nat2Z.inj_add in IH. simpl in IH.
    rewrite <- !(assoc_L (++)) in IH.
    replace (Z.of_nat (length pre) + k + 1)
      with (Z.of_nat (length pre) + 1 + k) by lia.
    apply IH.
Qed.

(** X14: [clean(empty)] always returns, for both values of [empty], and what
    it leaves is the selection of the slots that survive, in their order and
    with their names: a [None] block is dropped, a leaf without points is
    dropped only when [empty] is set, and a nested container is cleaned with
    [empty=True] whatever [empty] is and dropped when that leaves it without
    blocks.  The [_refs] keys only shrink. *)
Theorem clean_keeps_survivors (empty : bool) (self : MultiBlock) :
  exists self',
    clean empty self = (self', Return tt) /\
    address self' = address self /\
    slots self' = omap (survivor empty) (slots self) /\
    refs self' ⊆ refs self.
Proof.
  destruct self as [a s r].
  destruct (clean_scan_survivors empty s 0) as (marked & Escan & Hkept).
  rewrite clean_unfold, Escan.
  pose proof (clean_remove_remove_all (positions 0 marked) [] 0
                (MB a (snd <$> marked) r)) as Hloop.
  assert (Hid : (fun v => v - 0) <$> positions 0 marked = positions 0 marked).
  { rewrite <- (list_fmap_id (positions 0 marked)) at 2.
    apply list_fmap_ext. intros _ v _. simpl. lia. }
  rewrite Hid in Hloop. simpl in Hloop. rewrite Hloop.
  destruct (remove_all_positions_refs marked [] 0 a r) as (r' & Hrem & Hsub).
  change (Z.of_nat (length []) + 0) with 0 in Hrem.
  change ([] ++ (snd <$> marked)) with (snd <$> marked) in Hrem.
  rewrite Hrem. eexists. split; [reflexivity |]. simpl.
  by rewrite Hkept.
Qed.

(** ** Bounds: enclosure *)

Lemma encloses_trans (a b c : BoundsTuple) :
  encloses a b -> encloses b c -> encloses a c.
Proof.
  unfold encloses. intros (H1 & H2 & H3 & H4 & H5 & H6) (K1 & K2 & K3 & K4 & K5 & K6).
  repeat split; eapply Qle_trans; eassumption.
Qed.

Lemma bounds_encloses_contributing (self : MultiBlock) (b : BoundsTuple) :
  b ∈ contributing_bounds self -> encloses (bounds self) b.
Proof.
  intros Hin. rewrite bounds_unfold.
  destruct (contributing_bounds self) as [| row rows] eqn:E.
  { by apply elem_of_nil in Hin. }
  unfold encloses. simpl.
  repeat split;
    first [ rewrite (ufunc_reduce_coordinate np_minimum Qmin) by done;
            apply foldl_Qmin_minimum
          | rewrite (ufunc_reduce_coordinate np_maximum Qmax) by done;
            apply foldl_Qmax_maximum ];
    rewrite <- fmap_cons; by apply list_elem_of_fmap_2.
Qed.

Lemma slots_leaves_intro (nested : MultiBlock -> Prop) (P : DataSet -> Prop)
    (l : list slot) :
  Forall (fun sl : slot =>
            match sl.2 with
            | BNone => True
            | BData d => P d
            | BMulti m => nested m
            end) l ->
  slots_leaves nested P l.
Proof.
  induction 1 as [| [nm b] l Hb _ IH]; simpl; [done |]. by split.
Qed.

Lemma bounds_encloses_below (self : MultiBlock) (outer : BoundsTuple) :
  encloses outer (bounds self) ->
  all_leaves (fun d => ds_truth d = true -> encloses outer (ds_bounds d)) self.
Proof.
  revert outer.
  induction self as [a s r IH] using MultiBlock_nested_ind. intros outer Hout.
  simpl. apply slots_leaves_intro. apply Forall_forall. intros [nm b] Hin.
  rewrite Forall_forall in IH. specialize (IH _ Hin). simpl in *.
  assert (Hc : forall row, contributes b = Some row -> encloses outer row).
  { intros row Hrow. eapply encloses_trans; [exact Hout |].
    apply (bounds_encloses_contributing (MB a s r)).
    unfold contributing_bounds. simpl. apply list_elem_of_omap.
    by exists (nm, b). }
  destruct b as [| d | m]; [done | |].
  - intros Ht. apply Hc. simpl. by rewrite Ht.
  - destruct (decide (0 < n_blocks m)%nat) as [Hn | Hn].
    + apply IH, Hc. simpl. by rewrite bool_decide_eq_true_2.
    + destruct m as [a' [| sl s'] r']; [done |].
      unfold n_blocks, GetNumberOfBlocks in Hn. simpl in Hn. lia.
Qed.

(** X15: the bounds of a container enclose every leaf dataset in it, at any
    depth of nesting, that counts as a block ([if block]): on each axis the
    lower bound of the container is at most the leaf's and the upper bound at
    least the leaf's. *)
Theorem bounds_encloses_leaves (self : MultiBlock) :
  all_leaves
    (fun d => ds_truth d = true -> encloses (bounds self) (ds_bounds d)) self.
Proof.
  apply bounds_encloses_below. unfold encloses. repeat split; apply Qle_refl.
Qed.

(** ** Extending *)

Lemma for_each_fmap {A B} (f : A -> B) (l : list A) (body : B -> M unit)
    (self : MultiBlock) :
  for_each (f <$> l) body self = for_each l (fun x => body (f x)) self.
Proof.
  revert self. induction l as [| x l IH]; intros self; [done |].
  simpl. unfold bind. destruct (body (f x) self) as [st [[] | e]]; [apply IH | done].
Qed.

Lemma for_each_ext {A} (l : list A) (body body' : A -> M unit) :
  (forall x, body x = body' x) -> for_each l body = for_each l body'.
Proof.
  intros H. induction l as [| x l IH]; [done |]. simpl. by rewrite H, IH.
Qed.

Lemma for_each_app {A} (l1 l2 : list A) (body : A -> M unit)
    (self self' : MultiBlock) :
  for_each l1 body self = (self', Return tt) ->
  for_each (l1 ++ l2) body self = for_each l2 body self'.
Proof.
  revert self. induction l1 as [| x l1 IH]; intros self H; simpl in *.
  - by inversion H.
  - unfold bind in *. destruct (body x self) as [st [[] | e]]; [by apply IH | done].
Qed.

Lemma for_each_append (l : list slot) (a : addr) (s : list slot) (r : gset addr) :
  Forall (fun sl : slot => is_self sl.2 (MB a s r) = false) l ->
  for_each l (fun sl : slot => append (PyBlock sl.2) sl.1) (MB a s r)
  = (appended l (MB a s r), Return tt).
Proof.
  revert s r. induction l as [| [nm b] l IH]; intros s r Hl.
  - unfold appended. simpl. by rewrite app_nil_r.
  - apply Forall_cons in Hl as [Hb Hl]. simpl in Hb.
    rewrite for_each_cons. erewrite bind_Return; [| by apply append_block].
    simpl. rewrite IH.
    2:{ eapply Forall_impl; [exact Hl |]. intros [nm' b'] H. simpl in *.
        by destruct b'. }
    unfold appended. simpl. rewrite <- (assoc_L (++)). simpl.
    do 3 f_equal. unfold n_blocks, GetNumberOfBlocks. simpl.
    rewrite Nat.add_0_r. f_equal. apply imap_ext. intros i [nm' b'] _. simpl.
    rewrite length_app. simpl. do 4 f_equal. lia.
Qed.

(** X16: extending with another container appends its blocks in order, each
    with the name it has there, an unnamed one with the generated default of
    the position it comes to; the length grows by the other container's and
    the slots already there stay.  No block of the other container may be the
    extended container itself. *)
Theorem extend_multiblock (self datasets : MultiBlock) :
  Forall (fun b => is_self b self = false) (iter_blocks datasets) ->
  extend (IterMulti datasets) self = (appended (slots datasets) self, Return tt).
Proof.
  intros Hself. unfold extend. rewrite keys_fst. unfold iter_blocks.
  rewrite zip_fst_snd. destruct self as [a s r].
  rewrite (for_each_ext _ _ (fun sl : slot => append (PyBlock sl.2) sl.1))
    by (by intros [nm b]).
  apply for_each_append.
  unfold iter_blocks in Hself. by apply Forall_fmap in Hself.
Qed.

Lemma extend_multiblock_witness :
  extend (IterMulti three_blocks) unnamed_one
  = (appended (slots three_blocks) unnamed_one, Return tt) /\
  keys (appended (slots three_blocks) unnamed_one)
  = None :: keys three_blocks.
Proof.
  split.
  - apply (extend_multiblock unnamed_one three_blocks).
    vm_compute. repeat constructor.
  - vm_compute. reflexivity.
Defined.

(** X17: extending with a list of datasets appends them in order under the
    generated default names.  The extension is not atomic: at an element that
    is an array it raises [TypeError], and the datasets before that element
    stay appended. *)
Theorem extend_list (self : MultiBlock) (bs : list block) (post : list pyobject) :
  Forall (fun b => is_self b self = false) bs ->
  let self' := appended ((fun b => (None, b)) <$> bs) self in
  extend (IterList (PyBlock <$> bs)) self = (self', Return tt) /\
  extend (IterList ((PyBlock <$> bs) ++ PyArray :: post)) self
  = (self', Raise TypeError).
Proof.
  intros Hself self'. unfold extend.
  assert (H : for_each (PyBlock <$> bs) (fun v => append v None) self
              = (self', Return tt)).
  { rewrite for_each_fmap. destruct self as [a s r].
    unfold self'. rewrite <- for_each_append.
    - by rewrite for_each_fmap.
    - apply Forall_fmap. eapply Forall_impl; [exact Hself |]. by intros b Hb. }
  split; [exact H |].
  rewrite (for_each_app _ _ _ _ _ H). reflexivity.
Qed.

Lemma extend_list_witness :
  extend (IterList ((PyBlock <$> [BData (example_dataset 7%N)]) ++ [PyArray]))
    empty_container
  = (appended [(None, BData (example_dataset 7%N))] empty_container,
     Raise TypeError) /\
  keys (appended [(None, BData (example_dataset 7%N))] empty_container)
  = [Some "Block-00"%string].
Proof.
  split.
  - refine (proj2 (extend_list empty_container [BData (example_dataset 7%N)] [] _)).
    by repeat constructor.
  - vm_compute. reflexivity.
Defined.

(** ** Slices *)

Lemma range_elements_between (start stop step : Z) (i : Z) :
  step <> 0 ->
  i ∈ range_elements (start, stop, step) ->
  (0 < step -> start <= i < stop) /\ (step < 0 -> stop < i <= start).
Proof.
  intros Hstep Hi. unfold range_elements in Hi.
  apply list_elem_of_fmap in Hi as (k & -> & Hk). apply elem_of_seq in Hk.
  destruct (step <? 0) eqn:Es.
  - apply Z.ltb_lt in Es. split; [lia |]. intros _.
    destruct (stop <? start) eqn:E; [| simpl in Hk; lia].
    apply Z.ltb_lt in E.
    assert (Hq := Z.mul_div_le (start - stop - 1) (- step) ltac:(lia)).
    assert (0 <= (start - stop - 1) / - step) by (apply Z.div_pos; lia).
    nia.
  - apply Z.ltb_ge in Es. split; [| lia]. intros _.
    destruct (start <? stop) eqn:E; [| simpl in Hk; lia].
    apply Z.ltb_lt in E.
    assert (Hq := Z.mul_div_le (stop - start - 1) step ltac:(lia)).
    assert (0 <= (stop - start - 1) / step) by (apply Z.div_pos; lia).
    nia.
Qed.

Lemma slice_indices_Return (sl : slice) (n : nat) (start stop step : Z) :
  slice_indices sl n = Return (start, stop, step) ->
  step = default 1 (sl_step sl) /\ step <> 0 /\
  (0 < step -> 0 <= start /\ stop <= Z.of_nat n) /\
  (step < 0 -> -1 <= stop /\ start <= Z.of_nat n - 1).
Proof.
  unfold slice_indices. destruct (default 1 (sl_step sl) =? 0) eqn:E0; [done |].
  apply Z.eqb_neq in E0. intros H. inversion H; subst. clear H.
  split; [done |]. split; [done |].
  destruct (default 1 (sl_step sl) <? 0) eqn:Es;
    [apply Z.ltb_lt in Es | apply Z.ltb_ge in Es];
    (split; intros Hs; [try lia | try lia]);
    repeat case_match;
    repeat match goal with
           | H : (_ <? _) = true |- _ => apply Z.ltb_lt in H
           | H : (_ <? _) = false |- _ => apply Z.ltb_ge in H
           end; lia.
Qed.

Lemma slice_indices_Raise (sl : slice) (n : nat) (e : exn) :
  slice_indices sl n = Raise e <-> sl_step sl = Some 0 /\ e = ValueError.
Proof.
  unfold slice_indices. destruct (sl_step sl) as [step |]; simpl.
  - destruct (step =? 0) eqn:E0.
    + apply Z.eqb_eq in E0 as ->. split; [intros H; by inversion H | by intros [_ ->]].
    + apply Z.eqb_neq in E0. split; [done | intros [H _]; congruence].
  - split; [done | by intros [? _]].
Qed.

Lemma range_getslice_in_range (n : nat) (sl : slice) (index_iter : list Z) :
  range_getslice n sl = Return index_iter ->
  Forall (fun i => 0 <= i < Z.of_nat n) index_iter.
Proof.
  unfold range_getslice.
  destruct (slice_indices sl n) as [[[start stop] step] | e] eqn:E; [| done].
  intros H. inversion H; subst. clear H.
  apply slice_indices_Return in E as (_ & Hstep & Hpos & Hneg).
  apply Forall_forall. intros i Hi.
  apply range_elements_between in Hi as [Hi1 Hi2]; [| done]. lia.
Qed.

Lemma for_each_ext_in {A} (l : list A) (body body' : A -> M unit)
    (self : MultiBlock) :
  (forall x st, x ∈ l -> body x st = body' x st) ->
  for_each l body self = for_each l body' self.
Proof.
  revert self. induction l as [| x l IH]; intros self H; [done |].
  simpl. unfold bind. rewrite H by (by left).
  destruct (body' x self) as [st [[] | e]]; [| done].
  apply IH. intros y st' Hy. apply H. by right.
Qed.

Lemma slot_at_not_self (self other : MultiBlock) (i : Z) :
  Forall (fun b => is_self b other = false) (iter_blocks self) ->
  is_self (slot_at self i).2 other = false.
Proof.
  intros Hself. unfold slot_at, GetBlock. simpl.
  destruct (slots self !! Z.to_nat i) as [[nm b] |] eqn:E; [| done].
  rewrite Forall_forall in Hself. apply Hself. unfold iter_blocks.
  apply list_elem_of_fmap. exists (nm, b). split; [done |].
  by eapply list_elem_of_lookup_2.
Qed.

(** X18: reading a slice [c[sl]] fails only on a zero step, with
    [ValueError].  Otherwise it returns a new container that holds, for the
    positions [range(n)[sl]] in their order, the block of each position under
    the name it has in [c]; an unnamed one gets the generated default of its
    position in the new container.  The positions are all valid, so the read
    raises no [IndexError] however far the slice reaches. *)
Theorem getitem_slice (self : MultiBlock) (fresh : addr) (sl : slice) :
  Forall (fun b => is_self b (MB fresh [] ∅) = false) (iter_blocks self) ->
  (sl_step sl = Some 0 -> __getitem__slice fresh sl self = Raise ValueError) /\
  (sl_step sl <> Some 0 ->
   exists index_iter,
     range_getslice (n_blocks self) sl = Return index_iter /\
     Forall (fun i => 0 <= i < Z.of_nat (n_blocks self)) index_iter /\
     __getitem__slice fresh sl self
     = Return (appended (slot_at self <$> index_iter) (MB fresh [] ∅))).
Proof.
  intros Hself. unfold __getitem__slice.
  destruct (range_getslice (n_blocks self) sl) as [index_iter | e] eqn:E.
  - assert (Hstep : sl_step sl <> Some 0).
    { intros H0. unfold range_getslice in E.
      destruct (slice_indices sl (n_blocks self)) eqn:E'; [| done].
      pose proof (proj2 (slice_indices_Raise sl (n_blocks self) ValueError)
                    (conj H0 eq_refl)). congruence. }
    split; [done |]. intros _. exists index_iter.
    pose proof (range_getslice_in_range _ _ _ E) as Hrange.
    split; [done |]. split; [done |].
    rewrite (for_each_ext_in _ _
               (fun i => append (PyBlock (slot_at self i).2) (slot_at self i).1)).
    + rewrite <- (for_each_fmap (slot_at self) index_iter
                    (fun sl : slot => append (PyBlock sl.2) sl.1)).
      rewrite for_each_append; [done |].
      apply Forall_fmap, Forall_forall. intros i _. by apply slot_at_not_self.
    + intros i st Hi. rewrite Forall_forall in Hrange. specialize (Hrange i Hi).
      assert (Hk : (Z.to_nat i < n_blocks self)%nat) by lia.
      assert (Hg : __getitem__ (KInt i) self
                   = (self, Return (GetBlock (Z.to_nat i) self))).
      { rewrite <- (Z2Nat.id i) at 1 by lia. by apply getitem_nat. }
      assert (Hn : get_block_name i self
                   = (self, Return (GetMetaDataName (Z.to_nat i) self))).
      { rewrite <- (Z2Nat.id i) at 1 by lia. by apply get_block_name_nat. }
      rewrite Hg, Hn. reflexivity.
  - unfold range_getslice in E.
    destruct (slice_indices sl (n_blocks self)) eqn:E'; [done |].
    inversion E; subst.
    apply slice_indices_Raise in E' as [H0 ->]. split; [done | done].
Qed.

Lemma getitem_slice_witness :
  __getitem__slice 9%N (mkSlice (Some 5) None (Some (-2))) three_blocks
  = Return (appended [slot_at three_blocks 2; slot_at three_blocks 0] (MB 9%N [] ∅)) /\
  __getitem__slice 9%N (mkSlice None None (Some 0)) three_blocks = Raise ValueError.
Proof.
  assert (H : Forall (fun b => is_self b (MB 9%N [] ∅) = false)
                (iter_blocks three_blocks)) by (vm_compute; repeat constructor).
  split.
  - destruct (proj2 (getitem_slice three_blocks 9%N
                       (mkSlice (Some 5) None (Some (-2))) H))
      as (index_iter & E & _ & ->); [done |].
    vm_compute in E. by inversion E.
  - by apply (proj1 (getitem_slice three_blocks 9%N (mkSlice None None (Some 0)) H)).
Defined.

Lemma kept_app (m1 m2 : list (bool * slot)) :
  kept (m1 ++ m2) = kept m1 ++ kept m2.
Proof.
  induction m1 as [| [[] sl] m1 IH]; simpl; [done | done | by rewrite IH].
Qed.

Lemma kept_imap_false (f : nat -> slot -> bool * slot) (l : list slot) :
  (forall i sl, l !! i = Some sl -> f i sl = (false, sl)) ->
  kept (imap f l) = l.
Proof.
  revert f. induction l as [| x l IH]; intros f H; [done |].
  simpl. rewrite (H 0%nat x eq_refl). f_equal.
  apply IH. intros i sl Hi. by apply (H (S i)).
Qed.

Lemma kept_marked_delete (l1 : list slot) (x : slot) (l2 : list slot)
    (ps : list Z) :
  Forall (fun q => q < Z.of_nat (length l1)) ps ->
  kept (marked_at (Z.of_nat (length l1) :: ps) (l1 ++ x :: l2))
  = kept (marked_at ps (l1 ++ l2)).
Proof.
  intros Hps. rewrite Forall_forall in Hps.
  unfold marked_at. rewrite !imap_app, !kept_app. f_equal.
  - f_equal. apply imap_ext. intros i sl Hi. simpl. f_equal.
    apply lookup_lt_Some in Hi. apply bool_decide_ext. rewrite elem_of_cons.
    split; [intros [H | H]; [lia | done] | by right].
  - simpl. rewrite bool_decide_eq_true_2.
    2:{ rewrite Nat.add_0_r. by left. }
    rewrite !kept_imap_false; [done | |].
    + intros i sl _. f_equal. apply bool_decide_eq_false_2.
      intros H%Hps. lia.
    + intros i sl _. simpl. f_equal. apply bool_decide_eq_false_2.
      intros [H | H%Hps]%elem_of_cons; lia.
Qed.

Lemma delete_descending (ps : list Z) (a : addr) (s : list slot) (r : gset addr) :
  descending ps ->
  Forall (fun p => 0 <= p < Z.of_nat (length s)) ps ->
  exists r',
    for_each ps (fun i => __delitem__ (KInt i)) (MB a s r)
    = (MB a (kept (marked_at ps s)) r', Return tt) /\ r' ⊆ r.
Proof.
  revert s r. induction ps as [| p ps IH]; intros s r Hdesc Hrange.
  - exists r. split; [| done]. simpl. unfold ret. do 2 f_equal.
    unfold marked_at. rewrite kept_imap_false; [done |].
    intros i sl _. by f_equal.
  - destruct Hdesc as [Hlt Hdesc]. apply Forall_cons in Hrange as [Hp Hrange].
    assert (Hk : (Z.to_nat p < length s)%nat) by lia.
    destruct (lookup_lt_is_Some_2 s (Z.to_nat p) Hk) as [x Hx].
    apply list_elem_of_split_length in Hx as (l1 & l2 & -> & Hlen).
    assert (Hp' : p = Z.of_nat (length l1)) by lia. subst p. clear Hlen Hk.
    rewrite for_each_cons. erewrite bind_Return.
    2:{ apply delitem_nat. unfold n_blocks, GetNumberOfBlocks. simpl.
        rewrite length_app. simpl. lia. }
    simpl. rewrite delete_middle.
    destruct (IH (l1 ++ l2)
                (drop_ref (GetBlock (length l1) (MB a (l1 ++ x :: l2) r)) r) Hdesc)
      as (r' & E & Hsub).
    { rewrite Forall_forall in Hlt, Hrange. apply Forall_forall. intros q Hq.
      specialize (Hlt q Hq). specialize (Hrange q Hq).
      rewrite length_app in *. simpl in *. lia. }
    exists r'. split.
    + rewrite E. by rewrite kept_marked_delete.
    + etrans; [exact Hsub |]. unfold drop_ref.
      destruct (memory_address _); set_solver.
Qed.

Lemma range_descending_negative (start step : Z) (a len : nat) :
  step < 0 ->
  descending ((fun k => start + Z.of_nat k * step) <$> seq a len).
Proof.
  intros Hstep. revert a. induction len as [| len IH]; intros a; [done |].
  simpl. split; [| apply IH].
  apply Forall_fmap, Forall_forall. intros k Hk%elem_of_seq. simpl. nia.
Qed.

Lemma range_descending_positive (start step : Z) (a len : nat) :
  0 < step ->
  descending (reverse ((fun k => start + Z.of_nat k * step) <$> seq a len)).
Proof.
  intros Hstep. induction len as [| len IH]; [done |].
  rewrite seq_S, fmap_app, reverse_app. simpl. split; [| exact IH].
  apply Forall_reverse, Forall_fmap, Forall_forall.
  intros k Hk%elem_of_seq. simpl. nia.
Qed.

(** X19: deleting a slice [del c[sl]] fails only on a zero step, with
    [ValueError] and the container untouched.  Otherwise it removes the
    blocks at the positions [range(n)[sl]], whatever the sign of the step,
    and no others: the slots outside the slice stay, in their order and with
    their names.  The [_refs] keys only shrink. *)
Theorem delitem_slice (self : MultiBlock) (sl : slice) :
  (sl_step sl = Some 0 -> __delitem__slice sl self = (self, Raise ValueError)) /\
  (sl_step sl <> Some 0 ->
   exists index_iter self',
     range_getslice (n_blocks self) sl = Return index_iter /\
     __delitem__slice sl self = (self', Return tt) /\
     address self' = address self /\
     slots self' = kept (marked_at index_iter (slots self)) /\
     refs self' ⊆ refs self).
Proof.
  unfold __delitem__slice, range_getslice.
  destruct (slice_indices sl (n_blocks self)) as [[[start stop] step] | e] eqn:E.
  - pose proof (slice_indices_Return _ _ _ _ _ E) as (_ & Hstep & _).
    assert (Hne : sl_step sl <> Some 0).
    { intros H0.
      pose proof (proj2 (slice_indices_Raise sl (n_blocks self) ValueError)
                    (conj H0 eq_refl)). congruence. }
    split; [done |]. intros _.
    assert (Hrange : Forall (fun i => 0 <= i < Z.of_nat (n_blocks self))
                       (range_elements (start, stop, step))).
    { apply (range_getslice_in_range _ sl). unfold range_getslice. by rewrite E. }
    exists (range_elements (start, stop, step)).
    destruct self as [a s r]. unfold n_blocks, GetNumberOfBlocks in Hrange.
    simpl in Hrange.
    destruct (0 <? step) eqn:Es; [apply Z.ltb_lt in Es | apply Z.ltb_ge in Es].
    + destruct (delete_descending (reverse (range_elements (start, stop, step)))
                  a s r) as (r' & Edel & Hsub).
      { unfold range_elements. by apply range_descending_positive. }
      { by apply Forall_reverse. }
      eexists. split; [done |]. split; [exact Edel |]. simpl.
      split; [done |]. split; [| done].
      f_equal. unfold marked_at. apply imap_ext. intros i x _. simpl. f_equal.
      apply bool_decide_ext. by rewrite elem_of_reverse.
    + destruct (delete_descending (range_elements (start, stop, step)) a s r)
        as (r' & Edel & Hsub).
      { unfold range_elements. apply range_descending_negative. lia. }
      { done. }
      eexists. split; [done |]. by split.
  - apply slice_indices_Raise in E as [H0 ->]. split; [done | done].
Qed.

Lemma delitem_slice_witness :
  exists self',
    __delitem__slice (mkSlice None None (Some 2)) three_blocks = (self', Return tt) /\
    keys self' = [Some "Block-01"%string] /\
    __delitem__slice (mkSlice None None (Some 0)) three_blocks
    = (three_blocks, Raise ValueError).
Proof.
  destruct (proj2 (delitem_slice three_blocks (mkSlice None None (Some 2))))
    as (index_iter & self' & E & Edel & _ & Hslots & _); [done |].
  exists self'. split; [exact Edel |]. split.
  - rewrite keys_fst, Hslots. vm_compute in E. inversion E; subst.
    vm_compute. reflexivity.
  - by apply (proj1 (delitem_slice three_blocks (mkSlice None None (Some 0)))).
Defined.

(** ** Reversal *)

Lemma for_each_seq_invariant (P : nat -> MultiBlock -> Prop)
    (body : nat -> M unit) (a k : nat) (self : MultiBlock) :
  P a self ->
  (forall j st, (a <= j < a + k)%nat -> P j st ->
     exists st', body j st = (st', Return tt) /\ P (S j) st') ->
  exists st', for_each (seq a k) body self = (st', Return tt) /\ P (a + k)%nat st'.
Proof.
  revert a self. induction k as [| k IH]; intros a self HP Hstep.
  - exists self. rewrite Nat.add_0_r. by split.
  - destruct (Hstep a self ltac:(lia) HP) as (st1 & E1 & HP1).
    destruct (IH (S a) st1 HP1) as (st' & E & HP').
    { intros j st Hj. apply Hstep. lia. }
    exists st'. simpl. erewrite bind_Return; [| exact E1].
    split; [exact E |]. by replace (a + S k)%nat with (S a + k)%nat by lia.
Qed.

Lemma GetBlock_lookup (self st : MultiBlock) (p q : nat) :
  slots st !! p = slots self !! q -> GetBlock p st = GetBlock q self.
Proof. intros H. unfold GetBlock. unfold slot in *. by rewrite H. Qed.

Lemma lookup_assigned_eq (k : nat) (name : string) (data : block)
    (self : MultiBlock) :
  (k < n_blocks self)%nat ->
  slots (assigned k name data self) !! k = Some (Some name, data).
Proof. intros H. unfold assigned. simpl. by apply list_lookup_insert_eq. Qed.

Lemma reverse_swap_step (self st : MultiBlock) (j : nat) :
  (j < n_blocks self / 2)%nat ->
  swapped self j st ->
  exists st',
    (let! a := __getitem__ (KInt (Z.of_nat (n_blocks self) - Z.of_nat j - 1)) in
     let! b := __getitem__ (KInt (Z.of_nat j)) in
     __setitem__ (KInt (Z.of_nat j)) a >>
     __setitem__ (KInt (Z.of_nat (n_blocks self) - Z.of_nat j - 1)) b) st
    = (st', Return tt) /\
    swapped self (S j) st'.
Proof.
  unfold swapped. cbv zeta.
  remember (n_blocks self) as n eqn:Hn.
  intros Hj (Haddr & Hlen & Hslots & Hrefs).
  pose proof (Nat.Div0.mul_div_le n 2) as Hhalf.
  unfold slot in *.
  replace (Z.of_nat n - Z.of_nat j - 1) with (Z.of_nat (n - 1 - j)) by lia.
  assert (HA : GetBlock (n - 1 - j) st = GetBlock (n - 1 - j) self).
  { apply GetBlock_lookup. unfold slot. rewrite Hslots by lia.
    rewrite bool_decide_eq_false_2 by lia. done. }
  assert (HB : GetBlock j st = GetBlock j self).
  { apply GetBlock_lookup. unfold slot. rewrite Hslots by lia.
    rewrite bool_decide_eq_false_2 by lia. done. }
  erewrite bind_Return; [| apply getitem_nat; lia].
  erewrite bind_Return; [| apply getitem_nat; lia].
  erewrite bind_Return; [| apply setitem_int_nat; lia].
  rewrite setitem_int_nat by (rewrite n_blocks_assigned; lia).
  eexists. split; [reflexivity |].
  rewrite HA, HB.
  set (A := GetBlock (n - 1 - j) self). set (B := GetBlock j self).
  set (st1 := assigned j (default_name j) A st).
  assert (Hn1 : n_blocks st1 = n) by (unfold st1; by rewrite n_blocks_assigned).
  split; [exact Haddr |]. split.
  { by rewrite n_blocks_assigned. }
  split.
  - intros p Hp.
    destruct (decide (p = n - 1 - j)%nat) as [-> | Hne1].
    { rewrite lookup_assigned_eq by lia.
      rewrite bool_decide_eq_true_2 by lia.
      do 3 f_equal. unfold B. f_equal. lia. }
    rewrite lookup_assigned_ne by done.
    destruct (decide (p = j)) as [-> | Hne2].
    { unfold st1. rewrite lookup_assigned_eq by lia.
      rewrite bool_decide_eq_true_2 by lia. done. }
    unfold st1. rewrite lookup_assigned_ne by done. rewrite Hslots by done.
    destruct (decide (p < j \/ n - j <= p)%nat) as [H | H].
    + rewrite !bool_decide_eq_true_2 by lia. done.
    + rewrite !bool_decide_eq_false_2 by lia. done.
  - intros q a Hq Ha Hlow.
    assert (HB' : memory_address B <> Some a) by (apply Hlow; lia).
    assert (Hold : (n - j <= q)%nat -> a ∉ refs st).
    { intros H. apply (Hrefs q a); [lia | done | done]. }
    assert (HA' : (q = n - 1 - j)%nat -> memory_address A = Some a).
    { intros ->. exact Ha. }
    assert (HA1 : GetBlock (n - 1 - j) st1 = A).
    { unfold A. rewrite <- HA. apply GetBlock_lookup. unfold st1.
      apply lookup_assigned_ne. lia. }
    change (a ∉ add_ref B (drop_ref (GetBlock (n - 1 - j) st1)
                              (add_ref A (drop_ref (GetBlock j st) (refs st))))).
    rewrite HA1, HB. fold B.
    unfold add_ref, drop_ref.
    destruct (decide (q = n - 1 - j)%nat) as [Hq' | Hq'].
    + rewrite (HA' Hq'). destruct (memory_address B) as [b |]; set_solver.
    + assert (a ∉ refs st) by (apply Hold; lia).
      destruct (memory_address A), (memory_address B); set_solver.
Qed.

Lemma reverse_swap_loop (self : MultiBlock) :
  exists st,
    for_each (seq 0 (n_blocks self / 2))
      (fun i =>
         let! a := __getitem__ (KInt (Z.of_nat (n_blocks self) - Z.of_nat i - 1)) in
         let! b := __getitem__ (KInt (Z.of_nat i)) in
         __setitem__ (KInt (Z.of_nat i)) a >>
         __setitem__ (KInt (Z.of_nat (n_blocks self) - Z.of_nat i - 1)) b) self
    = (st, Return tt) /\
    swapped self (n_blocks self / 2) st.
Proof.
  apply (for_each_seq_invariant (swapped self)).
  - unfold swapped. cbv zeta. split; [done |]. split; [done |]. split.
    + intros p Hp. by rewrite bool_decide_eq_false_2 by lia.
    + intros q a Hq. lia.
  - intros j st Hj Hst. apply reverse_swap_step; [lia | done].
Qed.

Lemma reverse_names_loop (rn : list (option string)) (pre t : list slot)
    (a : addr) (r : gset addr) :
  length rn = length t ->
  for_each (imap (fun i name => ((length pre + i)%nat, name)) rn)
    (fun '(i, name) => set_block_name (Z.of_nat i) name) (MB a (pre ++ t) r)
  = (MB a (pre ++ zip_with renamed rn t) r, Return tt).
Proof.
  revert pre t. induction rn as [| nm rn IH]; intros pre [| x t] Hlen;
    try done.
  simpl in Hlen. rewrite imap_cons, for_each_cons.
  assert (E : set_block_name (Z.of_nat (length pre + 0)) nm (MB a (pre ++ x :: t) r)
              = (MB a ((pre ++ [renamed nm x]) ++ t) r, Return tt)).
  { rewrite <- (assoc_L (++)). simpl. destruct nm as [name |].
    - rewrite set_block_name_nat.
      2:{ unfold n_blocks, GetNumberOfBlocks. simpl. rewrite length_app. simpl. lia. }
      unfold with_slots. simpl. do 2 f_equal.
      rewrite Nat.add_0_r, alter_app_r_alt by done.
      by rewrite Nat.sub_diag.
    - rewrite set_block_name_None. by destruct x. }
  erewrite bind_Return; [| exact E].
  rewrite (imap_ext _ (fun i name => ((length (pre ++ [renamed nm x]) + i)%nat, name))).
  2:{ intros i y _. simpl. rewrite length_app. simpl. f_equal. lia. }
  rewrite IH by lia. simpl. by rewrite <- (assoc_L (++)).
Qed.

Lemma half_bounds (n : nat) : (2 * (n / 2) <= n < 2 * (n / 2) + 2)%nat.
Proof.
  pose proof (Nat.Div0.mul_div_le n 2). pose proof (Nat.mul_succ_div_gt n 2). lia.
Qed.

Lemma reverse_result (self : MultiBlock) :
  exists self',
    MultiBlock_reverse self = (self', Return tt) /\
    address self' = address self /\
    slots self'
    = imap (fun p (sl : slot) => (reversed_name (n_blocks self) p sl.1, sl.2))
        (reverse (slots self)) /\
    (forall q a, (n_blocks self - n_blocks self / 2 <= q < n_blocks self)%nat ->
       memory_address (GetBlock q self) = Some a ->
       (forall i, (i < n_blocks self / 2)%nat ->
          memory_address (GetBlock i self) <> Some a) ->
       a ∉ refs self').
Proof.
  destruct (reverse_swap_loop self) as (st1 & Eswap & Hswapped).
  destruct Hswapped as (Haddr & Hlen & Hslots & Hrefs).
  pose proof (half_bounds (n_blocks self)) as Hhalf.
  exists (MB (address st1) (zip_with renamed (reverse (keys self)) (slots st1))
            (refs st1)).
  split; [| split; [done | split; [| done]]].
  - unfold MultiBlock_reverse. cbv zeta. unfold __len__.
    erewrite bind_Return; [| exact Eswap].
    destruct st1 as [a1 s1 r1].
    apply (reverse_names_loop (reverse (keys self)) [] s1 a1 r1).
    rewrite length_reverse, keys_length. by rewrite <- Hlen.
  - cbn [slots]. apply list_eq. intros p.
    rewrite lookup_zip_with, list_lookup_imap, keys_fst, <- fmap_reverse,
      list_lookup_fmap.
    remember (n_blocks self) as n eqn:Hn.
    assert (Hn' : length (slots self) = n) by (by rewrite Hn).
    unfold slot in *.
    destruct (decide (p < n)%nat) as [Hp | Hp].
    + assert (Hrev : reverse (slots self) !! p = slots self !! (n - S p)%nat).
      { rewrite <- Hn'. apply reverse_lookup. rewrite <- Hn' in Hp. exact Hp. }
      unfold slot in *. rewrite Hrev.
      destruct (_ !! (n - S p)%nat) as [[nm b] |] eqn:E.
      2:{ apply lookup_ge_None in E. unfold slot in *. lia. }
      simpl. rewrite (Hslots p Hp).
      destruct (decide (p < n / 2 \/ n - n / 2 <= p)%nat) as [Hout | Hmid].
      * rewrite bool_decide_eq_true_2 by done. simpl.
        unfold GetBlock. replace (n - 1 - p)%nat with (n - S p)%nat by lia.
        unfold slot in *. rewrite E. unfold renamed, reversed_name. simpl.
        destruct nm; [done |]. by rewrite bool_decide_eq_false_2 by lia.
      * rewrite bool_decide_eq_false_2 by done.
        replace (n - S p)%nat with p in E by lia.
        rewrite E. simpl. unfold renamed, reversed_name. simpl.
        destruct nm; [done |]. by rewrite bool_decide_eq_true_2 by lia.
    + assert (Hnone : reverse (slots self) !! p = None).
      { apply lookup_ge_None. rewrite length_reverse. unfold slot in *. lia. }
      unfold slot in *. by rewrite Hnone.
Qed.

Lemma imap_same {A} (l : list A) : imap (fun _ x => x) l = l.
Proof. induction l as [| x l IH]; [done |]. simpl. f_equal. exact IH. Qed.

(** X20: [reverse()] always returns and leaves the blocks in reversed
    order.  A block that has a name keeps it; an unnamed block comes out with
    the generated default name of its new position, except the middle block
    of an odd number, which is not moved and stays unnamed.  On a container
    whose blocks are all named the slots are exactly reversed. *)
Theorem reverse_slots (self : MultiBlock) :
  exists self',
    MultiBlock_reverse self = (self', Return tt) /\
    address self' = address self /\
    slots self'
    = imap (fun p (sl : slot) => (reversed_name (n_blocks self) p sl.1, sl.2))
        (reverse (slots self)) /\
    (Forall (fun sl : slot => is_Some sl.1) (slots self) ->
     slots self' = reverse (slots self)).
Proof.
  destruct (reverse_result self) as (self' & E & Haddr & Hslots & _).
  exists self'. split; [done |]. split; [done |]. split; [done |].
  intros Hnamed. rewrite Hslots.
  rewrite (imap_ext _ (fun _ sl => sl)).
  - apply imap_same.
  - intros p [nm b] Hp. simpl.
    apply list_elem_of_lookup_2 in Hp. rewrite elem_of_reverse in Hp.
    rewrite Forall_forall in Hnamed. destruct (Hnamed _ Hp) as [name Hname].
    simpl in Hname. by subst nm.
Qed.

Lemma reverse_slots_witness :
  exists self',
    MultiBlock_reverse three_blocks = (self', Return tt) /\
    slots self' = reverse (slots three_blocks).
Proof.
  destruct (reverse_slots three_blocks) as (self' & E & _ & _ & H).
  exists self'. split; [exact E |]. apply H.
  vm_compute. repeat constructor; by eexists.
Defined.

(** X21: [reverse()] lets [_refs] drift.  A block of the upper half is
    moved to the mirrored position of the lower half, where the container
    still holds it, but its address is no key of [_refs] afterwards: the
    second assignment of each swap drops the reference that the first one
    stored.  (The address is not that of a block of the lower half.) *)
Theorem reverse_forgets_moved_block (self : MultiBlock) (q : nat) (a : addr) :
  (n_blocks self - n_blocks self / 2 <= q < n_blocks self)%nat ->
  memory_address (GetBlock q self) = Some a ->
  (forall i, (i < n_blocks self / 2)%nat ->
     memory_address (GetBlock i self) <> Some a) ->
  exists self',
    MultiBlock_reverse self = (self', Return tt) /\
    GetBlock (n_blocks self - 1 - q) self' = GetBlock q self /\
    a ∉ refs self'.
Proof.
  intros Hq Ha Hlow.
  destruct (reverse_result self) as (self' & E & _ & Hslots & Hrefs).
  exists self'. split; [done |]. split; [| by apply (Hrefs q a)].
  unfold GetBlock at 1. rewrite Hslots, list_lookup_imap.
  assert (Hrev : reverse (slots self) !! (n_blocks self - 1 - q)%nat
                 = slots self !! q).
  { unfold n_blocks, GetNumberOfBlocks in *. rewrite reverse_lookup by lia.
    f_equal. lia. }
  unfold slot in *. rewrite Hrev. unfold GetBlock. unfold slot in *.
  by destruct (_ !! q) as [[nm b] |].
Qed.

Lemma reverse_forgets_moved_block_witness :
  exists self',
    MultiBlock_reverse three_blocks = (self', Return tt) /\
    GetBlock 0 self' = BData (example_dataset 3%N) /\
    3%N ∈ refs three_blocks /\ 3%N ∉ refs self'.
Proof.
  destruct (reverse_forgets_moved_block three_blocks 2 3%N)
    as (self' & E & Hb & Hr).
  - vm_compute. lia.
  - reflexivity.
  - intros i Hi. assert (i = 0%nat) as -> by (vm_compute in Hi; lia). done.
  - exists self'. split; [exact E |]. split; [exact Hb |]. split; [| exact Hr].
    vm_compute. set_solver.
Defined.

(** ** Deleting by name *)

(** X22: [del c[s]] and [c.pop(s)] for a name [s] remove the first slot that
    carries the name, name and block together, and only that one: slots of the
    same name further on stay.  [pop] returns the block of that slot, and
    [_refs] loses its address. *)
Theorem delitem_name_first_match (self : MultiBlock) (s : string) (i : nat) :
  keys self !! i = Some (Some s) ->
  (forall j, (j < i)%nat -> keys self !! j <> Some (Some s)) ->
  let self' := MB (address self) (delete i (slots self))
                 (drop_ref (GetBlock i self) (refs self)) in
  __delitem__ (KStr s) self = (self', Return tt) /\
  pop (KStr s) self = (self', Return (GetBlock i self)).
Proof.
  intros Hi Hfirst self'.
  assert (Hlt : (i < n_blocks self)%nat).
  { rewrite <- keys_length. by eapply lookup_lt_Some. }
  assert (Hdel : __delitem__ (KStr s) self = (self', Return tt)).
  { pose proof (delitem_nat self i Hlt) as H. unfold __delitem__ in *.
    erewrite bind_Return in H; [| reflexivity].
    erewrite bind_Return; [exact H |].
    erewrite bind_Return; [reflexivity | by apply get_index_by_name_first]. }
  split; [exact Hdel |].
  unfold pop. erewrite bind_Return; [| reflexivity].
  destruct (proj2 (getitem_name_first_match_aux self s)) as (i' & Hi' & Hfirst' & E).
  { apply list_elem_of_lookup. by exists i. }
  assert (i' = i) as ->.
  { destruct (Nat.lt_trichotomy i' i) as [H | [H | H]]; [| done |].
    - by destruct (Hfirst i' H).
    - by destruct (Hfirst' i H). }
  erewrite bind_Return; [| exact E].
  erewrite bind_Return; [| exact Hdel]. reflexivity.
Qed.

Lemma delitem_name_first_match_witness :
  exists self',
    __delitem__ (KStr "Block-01") three_blocks = (self', Return tt) /\
    keys self' = [Some "Block-00"%string; Some "Block-02"%string].
Proof.
  destruct (delitem_name_first_match three_blocks "Block-01" 1) as [E _].
  - reflexivity.
  - intros j Hj. assert (j = 0%nat) as -> by lia. vm_compute. discriminate.
  - eexists. split; [exact E |]. vm_compute. reflexivity.
Defined.

(** ** Assignment to the full slice *)

Lemma setitem_slice_unfold (index : slice) (data : list block) :
  __setitem__slice index data =
  (let! index_iter := (fun self => lift (range_getslice (n_blocks self) index) self) in
   for_each (imap (fun i p => (i, p)) (zip_longest index_iter data))
     (setitem_slice_body index_iter)).
Proof. reflexivity. Qed.

Lemma full_slice_range (n : nat) :
  range_getslice n (mkSlice None None None) = Return (Z.of_nat <$> seq 0 n).
Proof.
  unfold range_getslice, slice_indices, range_elements. simpl. f_equal.
  destruct (0 <? Z.of_nat n) eqn:E.
  - rewrite Z.div_1_r.
    replace (Z.to_nat (Z.of_nat n - 0 - 1 + 1)) with n by lia.
    apply list_fmap_ext. intros _ k _. lia.
  - apply Z.ltb_ge in E. by replace n with 0%nat by lia.
Qed.

Lemma range_last_seq (n : nat) :
  range_last (Z.of_nat <$> seq 0 (S n)) = Return (Z.of_nat n).
Proof.
  unfold range_last. rewrite seq_S, fmap_app. simpl. by rewrite last_snoc.
Qed.

Lemma delitem_out_of_range (self : MultiBlock) (i : Z) :
  Z.of_nat (n_blocks self) <= i ->
  __delitem__ (KInt i) self = (self, Raise IndexError).
Proof.
  intros H. unfold __delitem__.
  erewrite bind_Return; [| reflexivity].
  erewrite bind_Raise; [reflexivity |].
  unfold _remove_ref. erewrite bind_Raise; [reflexivity |].
  apply getitem_out_of_range. lia.
Qed.

Lemma setitem_full_slice_loop (n : nat) (a : addr) (t : list slot) :
  forall (ds : list block) (pre : list slot) (r : gset addr),
    n = (length pre + length t)%nat ->
    Forall (fun d => is_None d = false) ds ->
    exists st' o,
      for_each
        (imap (fun i p => ((length pre + i)%nat, p))
           (zip_longest (Z.of_nat <$> seq (length pre) (length t)) ds))
        (setitem_slice_body (Z.of_nat <$> seq 0 n)) (MB a (pre ++ t) r)
      = (st', o) /\
      address st' = a /\
      n_blocks st' = n /\
      (length ds = length t ->
       o = Return tt /\
       slots st'
       = pre ++ imap (fun i d => (Some (default_name (length pre + i)), d)) ds) /\
      (length ds <> length t -> o = Raise IndexError).
Proof.
  induction t as [| x t IH]; intros ds pre r Hn Hds.
  - simpl in Hn. rewrite Nat.add_0_r in Hn. destruct ds as [| d ds].
    + exists (MB a (pre ++ []) r), (Return tt). simpl.
      split; [done |]. split; [done |]. split.
      { unfold n_blocks, GetNumberOfBlocks. simpl. rewrite length_app. simpl. lia. }
      split; [done | done].
    + exists (MB a (pre ++ []) r), (Raise IndexError).
      split; [| split; [done | split; [| split; [done | done]]]].
      2:{ unfold n_blocks, GetNumberOfBlocks. simpl. rewrite length_app. simpl. lia. }
      simpl. erewrite bind_Raise; [reflexivity |].
      destruct n as [| n'].
      * erewrite bind_Raise; reflexivity.
      * erewrite bind_Return; [| unfold lift; by rewrite range_last_seq].
        apply insert_out_of_range. right.
        unfold n_blocks, GetNumberOfBlocks. simpl.
        rewrite length_app, length_fmap, length_seq. simpl. lia.
  - simpl in Hn. destruct ds as [| d ds].
    + exists (MB a (pre ++ x :: t) r), (Raise IndexError).
      assert (Hlen : n_blocks (MB a (pre ++ x :: t) r) = n).
      { unfold n_blocks, GetNumberOfBlocks. simpl. rewrite length_app. simpl. lia. }
      split; [| split; [done | split; [done | split; [done | done]]]].
      simpl. erewrite bind_Raise; [reflexivity |].
      destruct n as [| n']; [lia |].
      erewrite bind_Return; [| unfold lift; by rewrite range_last_seq].
      apply delitem_out_of_range. rewrite Hlen. lia.
    + apply Forall_cons in Hds as [Hd Hds].
      set (x' := (Some (default_name (length pre)), d) : slot).
      destruct (IH ds (pre ++ [x'])
                  (add_ref d (drop_ref (GetBlock (length pre) (MB a (pre ++ x :: t) r)) r)))
        as (st' & o & E & Haddr & Hlen & Heq & Hne); [| done |].
      { rewrite length_app. simpl. lia. }
      exists st', o.
      split; [| split; [done | split; [done | split]]].
      * simpl. rewrite Hd.
        erewrite bind_Return.
        2:{ apply (setitem_int_nat (MB a (pre ++ x :: t) r) (length pre) d).
            unfold n_blocks, GetNumberOfBlocks. simpl. rewrite length_app. simpl. lia. }
        unfold assigned. simpl.
        rewrite insert_app_r_alt by done. rewrite Nat.sub_diag. simpl.
        rewrite <- E. rewrite <- (assoc_L (++)). simpl.
        rewrite length_app. simpl. rewrite Nat.add_1_r.
        f_equal; try done. apply imap_ext. intros i p _. simpl. f_equal. lia.
      * intros Hl. simpl in Hl. destruct Heq as [-> Hs]; [lia |].
        split; [done |]. rewrite Hs, <- (assoc_L (++)). simpl.
        rewrite Nat.add_0_r. do 2 f_equal.
        apply imap_ext. intros i y _. simpl. rewrite length_app. simpl.
        do 3 f_equal. lia.
      * intros Hl. simpl in Hl. apply Hne. lia.
Qed.

Lemma setitem_full_slice_result (self : MultiBlock) (data : list block) :
  Forall (fun d => is_None d = false) data ->
  exists self' o,
    __setitem__slice (mkSlice None None None) data self = (self', o) /\
    address self' = address self /\
    n_blocks self' = n_blocks self /\
    (length data = n_blocks self ->
     o = Return tt /\
     slots self' = imap (fun i d => (Some (default_name i), d)) data) /\
    (length data <> n_blocks self -> o = Raise IndexError).
Proof.
  intros Hdata. destruct self as [a s r].
  destruct (setitem_full_slice_loop (length s) a s data [] r eq_refl Hdata)
    as (st' & o & E & Haddr & Hlen & Heq & Hne).
  exists st', o. split; [| done].
  rewrite setitem_slice_unfold.
  erewrite bind_Return; [| unfold lift; by rewrite full_slice_range].
  exact E.
Qed.

(** X23: assigning to the full slice [c[:] = data] as many datasets as the
    container has blocks, none of them [None], succeeds: every block is
    replaced by the dataset of its position, and every slot comes out under
    the generated default name of its position, whatever name it had. *)
Theorem setitem_full_slice_equal_length (self : MultiBlock) (data : list block) :
  length data = n_blocks self ->
  Forall (fun d => is_None d = false) data ->
  exists self',
    __setitem__slice (mkSlice None None None) data self = (self', Return tt) /\
    address self' = address self /\
    slots self' = imap (fun i d => (Some (default_name i), d)) data.
Proof.
  intros Hlen Hdata.
  destruct (setitem_full_slice_result self data Hdata)
    as (self' & o & E & Haddr & _ & Heq & _).
  destruct (Heq Hlen) as [-> Hslots]. by exists self'.
Qed.

Lemma setitem_full_slice_equal_length_witness :
  exists self',
    __setitem__slice (mkSlice None None None) [BData (example_dataset 5%N)] named_one
    = (self', Return tt) /\
    keys named_one = [Some "x"%string] /\
    keys self' = [Some "Block-00"%string].
Proof.
  destruct (setitem_full_slice_equal_length named_one [BData (example_dataset 5%N)])
    as (self' & E & _ & Hslots).
  - reflexivity.
  - by repeat constructor.
  - exists self'. split; [exact E |]. split; [reflexivity |].
    by rewrite keys_fst, Hslots.
Defined.

(** X24: assigning to the full slice [c[:] = data] a number of datasets
    other than the number of blocks, none of them [None], raises [IndexError]
    on every container, with more datasets and with fewer; the container
    keeps its number of blocks.  The growth runs into [insert] at the index
    [n], the shrinking into [del self[n]]. *)
Theorem setitem_full_slice_any_mismatch (self : MultiBlock) (data : list block) :
  length data <> n_blocks self ->
  Forall (fun d => is_None d = false) data ->
  exists self',
    __setitem__slice (mkSlice None None None) data self = (self', Raise IndexError) /\
    n_blocks self' = n_blocks self.
Proof.
  intros Hlen Hdata.
  destruct (setitem_full_slice_result self data Hdata)
    as (self' & o & E & _ & Hn & _ & Hne).
  rewrite (Hne Hlen) in E. by exists self'.
Qed.

Lemma setitem_full_slice_any_mismatch_witness :
  (exists self',
     __setitem__slice (mkSlice None None None) [BData (example_dataset 5%N)]
       empty_container = (self', Raise IndexError) /\
     n_blocks self' = 0%nat) /\
  (exists self',
     __setitem__slice (mkSlice None None None) [] named_one
     = (self', Raise IndexError) /\
     n_blocks self' = 1%nat).
Proof.
  split.
  - apply (setitem_full_slice_any_mismatch empty_container
             [BData (example_dataset 5%N)]); [by vm_compute | by repeat constructor].
  - apply (setitem_full_slice_any_mismatch named_one []);
      [by vm_compute | constructor].
Defined.
